(** * STWDO offer monitor: a shallow embedding of [stwdo_offer_monitor.ts]

    The monitor fetches one page, extracts housing offers from it, compares
    them with the ids it has already reported, notifies about the new ones
    and records them.  This file embeds [extractOffersFromHtml],
    [notifyNewOffers], [loadLastSeen], [saveLastSeen], [loadMeta], [saveMeta]
    and [checkOnce] and states the properties of the specification on them.

    Conventions.  A JavaScript string is a [string] of the bytes of its
    UTF-8 encoding.  A [Map] or [Set] is the list of its entries in insertion
    order.  What the script gets from outside (the parsed page, the URL
    resolver, the network, the clock, the environment variables) is a field
    of [Host] or of [Outside]; the two JSON files are the state. *)

From Stdlib Require Import String Ascii List Bool Arith NArith Lia.
Import ListNotations.
Local Open Scope string_scope.
Local Open Scope nat_scope.

Set Implicit Arguments.

(** ** Strings *)

Module Str.

Definition byte (n : nat) : ascii := ascii_of_nat n.
Definition code (c : ascii) : nat := nat_of_ascii c.

Definition bytes (l : list nat) : string :=
  fold_right (fun n s => String (byte n) s) EmptyString l.

(** [s.startsWith(p)] *)
Definition startsWith (p s : string) : bool := String.prefix p s.

(** [s.includes(p)] *)
Fixpoint includes (p s : string) : bool :=
  startsWith p s ||
  match s with
  | EmptyString => false
  | String _ r => includes p r
  end.

(** A string is truthy when it is not empty. *)
Definition truthy (s : string) : bool :=
  match s with EmptyString => false | String _ _ => true end.

(** [a || b] on strings. *)
Definition or_else (a b : string) : string := if truthy a then a else b.

Definition is_upper (c : ascii) : bool :=
  (65 <=? code c) && (code c <=? 90).

Definition lower_char (c : ascii) : ascii :=
  if is_upper c then byte (code c + 32) else c.

(** Case folding of the letters A-Z only: what the [i] flag of a regular
    expression without the [u] flag does to a pattern of ASCII letters (a
    character outside ASCII never folds onto an ASCII one there). *)
Fixpoint lower_ascii (s : string) : string :=
  match s with
  | EmptyString => EmptyString
  | String c r => String (lower_char c) (lower_ascii r)
  end.

(** [s.toLowerCase()].  Besides A-Z the Kelvin sign U+212A (bytes E2 84 AA)
    is mapped to [k]: it is the one character outside ASCII whose lower
    case is an ASCII string.  Other characters outside ASCII are left as
    they are; their lower case stays outside ASCII, and the result is only
    ever compared with ASCII channel names. *)
Fixpoint toLowerCase (s : string) : string :=
  match s with
  | EmptyString => EmptyString
  | String c r =>
      match r with
      | String c2 (String c3 r3) =>
          if (code c =? 226) && (code c2 =? 132) && (code c3 =? 170)
          then String "k" (toLowerCase r3)
          else String (lower_char c) (toLowerCase r)
      | _ => String (lower_char c) (toLowerCase r)
      end
  end.

(** White space and line terminators of ECMAScript, as UTF-8 sequences:
    U+0009..U+000D, U+0020; U+00A0; U+1680, U+2000..U+200A, U+2028,
    U+2029, U+202F, U+205F, U+3000, U+FEFF. *)
Definition ws1 (a : nat) : bool :=
  ((9 <=? a) && (a <=? 13)) || (a =? 32).

Definition ws2 (a b : nat) : bool := (a =? 194) && (b =? 160).

Definition ws3 (a b c : nat) : bool :=
  ((a =? 225) && (b =? 154) && (c =? 128)) ||
  ((a =? 226) && (b =? 128) &&
     (((128 <=? c) && (c <=? 138)) || (c =? 168) || (c =? 169) || (c =? 175))) ||
  ((a =? 226) && (b =? 129) && (c =? 159)) ||
  ((a =? 227) && (b =? 128) && (c =? 128)) ||
  ((a =? 239) && (b =? 187) && (c =? 191)).

(** Drops the white space at the front.  With [back = true] the string is
    read backwards, so that the bytes of a sequence arrive last one first. *)
Fixpoint strip (back : bool) (s : string) : string :=
  match s with
  | EmptyString => s
  | String a r =>
      if ws1 (code a) then strip back r else
      match r with
      | EmptyString => s
      | String b r2 =>
          if (if back then ws2 (code b) (code a) else ws2 (code a) (code b))
          then strip back r2 else
          match r2 with
          | EmptyString => s
          | String c r3 =>
              if (if back then ws3 (code c) (code b) (code a)
                  else ws3 (code a) (code b) (code c))
              then strip back r3 else s
          end
      end
  end.

Fixpoint rev_append (s acc : string) : string :=
  match s with
  | EmptyString => acc
  | String c r => rev_append r (String c acc)
  end.

Definition rev (s : string) : string := rev_append s EmptyString.

(** [s.trim()] *)
Definition trim (s : string) : string :=
  rev (strip true (rev (strip false s))).

Definition newline : string := bytes [10].
Definition bullet : string := bytes [226; 128; 162].
Definition emdash : string := bytes [226; 128; 148].

(** [l.join(sep)] *)
Fixpoint join (sep : string) (l : list string) : string :=
  match l with
  | [] => EmptyString
  | [x] => x
  | x :: r => x ++ sep ++ join sep r
  end.

End Str.

(** ** Offers and the insertion-ordered map of the extractor *)

Record Offer := mkOffer { id : string; title : string; url : string }.

(** [Map<string, Offer>]: the entries in insertion order, no key twice. *)
Definition OffersMap := list (string * Offer).

Module JsMap.

Definition has (k : string) (m : OffersMap) : bool :=
  existsb (fun e => String.eqb (fst e) k) m.

(** [m.set(k, v)]: a key already there keeps its place and takes the new
    value; a new key goes to the end. *)
Fixpoint set (k : string) (v : Offer) (m : OffersMap) : OffersMap :=
  match m with
  | [] => [(k, v)]
  | (k', v') :: r =>
      if String.eqb k' k then (k', v) :: r else (k', v') :: set k v r
  end.

Definition size (m : OffersMap) : nat := length m.

(** [Array.from(m.values())] *)
Definition values (m : OffersMap) : list Offer := map snd m.

Definition keys (m : OffersMap) : list string := map fst m.

End JsMap.

(** [Set<string>]: the members in insertion order, none twice. *)
Module JsSet.

Definition has (x : string) (s : list string) : bool :=
  existsb (String.eqb x) s.

(** [s.add(x)] *)
Definition add (x : string) (s : list string) : list string :=
  if has x s then s else s ++ [x].

(** [new Set(l)] *)
Definition of_array (l : list string) : list string :=
  fold_left (fun s x => add x s) l [].

End JsSet.

(** ** The page as the extractor queries it *)

(** One element of [$("#residential-offer-list .teaser[data-href]")]. *)
Record Teaser := mkTeaser {
  data_href : option string;   (* $(el).attr("data-href") *)
  subheader : string;          (* $(el).find(".subheader-5").text() *)
  headline : string            (* $(el).find(".headline-5").text() *)
}.

(** One element of a selection of [a[href]]. *)
Record Anchor := mkAnchor {
  href : option string;        (* $(el).attr("href") *)
  text : string                (* $(el).text() *)
}.

(** What cheerio answers for the queries of [extractOffersFromHtml]. *)
Record Document := mkDocument {
  teaserList : list Teaser;               (* the teaser selection *)
  count : string -> nat;                  (* $(sel).length *)
  find_anchors : string -> list Anchor;   (* $(sel).find("a[href]") *)
  all_anchors : list Anchor               (* $("a[href]") *)
}.

(** What the script takes from its platform and from its environment
    variables; fixed for the life of the process. *)
Record Host := mkHost {
  cheerio_load : string -> Document;
  (** [new URL(ref, MONITOR_URL).toString()]; [None] when it throws. *)
  resolveURL : string -> option string;
  env_NOTIFY_METHOD : option string;
  TELEGRAM_BOT_TOKEN : option string;
  TELEGRAM_CHAT_ID : option string;
  WEBHOOK_URL : option string
}.

(** ** The extractor *)

(** [callback] applied to each element in turn, as [.each] does; [None]
    when a call throws. *)
Fixpoint each {A S : Type} (callback : S -> A -> option S) (l : list A) (s : S)
  : option S :=
  match l with
  | [] => Some s
  | a :: r =>
      match callback s a with
      | Some s' => each callback r s'
      | None => None
      end
  end.

Definition or_empty (a : option string) : string :=
  match a with Some s => s | None => EmptyString end.

Section Extractor.

Variable H : Host.

(** [x.startsWith("http") ? x : new URL(x, MONITOR_URL).toString()] *)
Definition absolute (ref : string) : option string :=
  if Str.startsWith "http" ref then Some ref else resolveURL H ref.

(** The callback of the structural pass (lines 121-132). *)
Definition teaser_callback (offersMap : OffersMap) (el : Teaser)
  : option OffersMap :=
  let dataHref := or_empty (data_href el) in
  if negb (Str.truthy dataHref) then Some offersMap else
  let location := Str.trim (subheader el) in
  let title := Str.trim (headline el) in
  let fullTitle :=
    if Str.truthy location then location ++ ": " ++ title else title in
  match absolute dataHref with
  | None => None
  | Some abs =>
      Some (JsMap.set abs (mkOffer abs (Str.or_else fullTitle abs) abs) offersMap)
  end.

Definition structural (doc : Document) : option OffersMap :=
  each teaser_callback (teaserList doc) [].

Definition containers : list string :=
  ["main"; "#content"; ".container"; ".content"].

(** The loop over [containers] (lines 137-144); [anchors] is [None] while
    it is still [null]. *)
Fixpoint scan (doc : Document) (sels : list string)
  (anchors : option (list Anchor)) : option (list Anchor) :=
  match sels with
  | [] => anchors
  | sel :: rest =>
      if 0 <? count doc sel then
        let found := find_anchors doc sel in
        if 0 <? length found then Some found
        else scan doc rest (Some found)
      else scan doc rest anchors
  end.

(** The anchors the fallback pass visits (lines 137-148). *)
Definition fallback_anchors (doc : Document) : list Anchor :=
  match scan doc containers None with
  | None => all_anchors doc
  | Some found =>
      if length found =? 0 then all_anchors doc else found
  end.

Definition isInternal (href : string) : bool :=
  Str.startsWith "/" href || Str.includes "stwdo.de" href.

(** [/wohn|zimmer|apartment|angebot|bewerb/i.test(s)] *)
Definition hasKeywords (s : string) : bool :=
  let t := Str.lower_ascii s in
  Str.includes "wohn" t || Str.includes "zimmer" t ||
  Str.includes "apartment" t || Str.includes "angebot" t ||
  Str.includes "bewerb" t.

(** The test of line 158 on one anchor. *)
Definition accepted (el : Anchor) : bool :=
  let h := or_empty (href el) in
  isInternal h && hasKeywords (Str.trim (text el) ++ h).

(** The callback of the fallback pass (lines 150-165). *)
Definition anchor_callback (offersMap : OffersMap) (el : Anchor)
  : option OffersMap :=
  let h := or_empty (href el) in
  let t := Str.trim (text el) in
  if negb (Str.truthy h) then Some offersMap else
  if isInternal h && hasKeywords (t ++ h) then
    match absolute h with
    | None => None
    | Some abs =>
        if negb (JsMap.has abs offersMap)
        then Some (JsMap.set abs (mkOffer abs (Str.or_else t abs) abs) offersMap)
        else Some offersMap
    end
  else Some offersMap.

Definition fallback (doc : Document) : option OffersMap :=
  each anchor_callback (fallback_anchors doc) [].

(** [extractOffersFromHtml] once the page is parsed; [None] when a URL
    cannot be resolved and the [TypeError] leaves the function. *)
Definition extractOffers (doc : Document) : option (list Offer) :=
  match structural doc with
  | None => None
  | Some offersMap =>
      if JsMap.size offersMap =? 0 then
        option_map JsMap.values (fallback doc)
      else Some (JsMap.values offersMap)
  end.

Definition extractOffersFromHtml (html : string) : option (list Offer) :=
  extractOffers (cheerio_load H html).

End Extractor.

(** ** The two files, the outside world and the events of a cycle *)

(** A JSON file as [fs.pathExists] and [fs.readJson] find it. *)
Inductive File (A : Type) : Type :=
| Absent                (* no such path *)
| Garbage               (* there, but [readJson] throws *)
| Parsed (payload : A). (* there, and [readJson] returns [payload] *)

Arguments Absent {A}.
Arguments Garbage {A}.
Arguments Parsed {A} payload.

(** The payload of [stwdo-meta.json], by the two fields [checkOnce] reads.
    The script writes an object with these two optional strings.  [loadMeta]
    returns whatever JSON value the file holds: the value [null], on which
    line 222 throws, is not a [Meta]; it is part of [MetaPayload] below, and
    [checkOnce_on_disk] gives the cycle for it. *)
Record Meta := mkMeta { etag : option string; lastModified : option string }.

(** The payload of [stwdo-last.json], by the tests [loadLastSeen] makes on
    it.  The array holds strings, as the return type of [loadLastSeen]
    declares. *)
Inductive SeenPayload : Type :=
| Falsy                      (* null, false, 0 or an empty string *)
| NoOffersArray              (* [data.offers] is not an array *)
| OffersArray (offers : list string).

Record Files := mkFiles { meta_file : File Meta; seen_file : File SeenPayload }.

Inductive FileName := STORAGE_FILE | META_FILE.

Record Headers := mkHeaders {
  user_agent : string;
  if_none_match : option string;
  if_modified_since : option string
}.

(** What comes back for the GET request, before [validateStatus]. *)
Inductive Reply : Type :=
| NoReply     (* network failure or timeout *)
| Response (status : nat) (etag_header last_modified_header : option string)
           (data : option string).   (* [data] is [None] when not a string *)

Inductive Payload : Type :=
| TelegramBody (chat_id text : string)   (* disable_web_page_preview: false *)
| WebhookBody (content : string).

(** What one cycle meets outside the process. *)
Record Outside := mkOutside {
  axios_get : Headers -> Reply;
  axios_post : string -> Payload -> bool;   (* does the post resolve? *)
  writable : FileName -> bool;              (* does [fs.writeJson] succeed? *)
  now : string                              (* new Date().toLocaleString() *)
}.

Inductive Exn : Type :=
| NetworkError
| BadStatus (status : nat)
| InvalidURL
| ReadFailed (f : FileName)
| WriteFailed (f : FileName)
| PostFailed.

Inductive Level := Log | Warn | Error.

Inductive LogLine : Type :=
| Plain (s : string)
| WithError (s : string) (e : Exn)
| EmailDraft (message : string)
| NotModified (ts : string)
| Detected (ts : string) (titles : list string)
| NoNewOffers (ts : string) (n : nat).

Inductive Component := Extractor | Differ | Notifier.

Inductive Event : Type :=
| FsRead (f : FileName)
| WriteMeta (m : Meta)                (* fs.writeJson(META_FILE, m) is called *)
| WriteSeen (offers : list string)    (* fs.writeJson(STORAGE_FILE, {offers}) *)
| HttpGet (h : Headers)
| HttpPost (url : string) (body : Payload)
| Console (lv : Level) (line : LogLine)
| Call (c : Component).               (* [checkOnce] reaches the component *)

(** ** Computations: the files as state, a trace of events, exceptions *)

Inductive Result (A : Type) : Type :=
| Ok (a : A)
| Throw (e : Exn).

Arguments Ok {A} a.
Arguments Throw {A} e.

Definition M (A : Type) : Type := Files -> Result A * Files * list Event.

Definition ret {A} (a : A) : M A := fun fs => (Ok a, fs, []).

Definition throw {A} (e : Exn) : M A := fun fs => (Throw e, fs, []).

Definition bind {A B} (m : M A) (k : A -> M B) : M B :=
  fun fs =>
    match m fs with
    | (Ok a, fs', t) =>
        match k a fs' with (r, fs'', t') => (r, fs'', (t ++ t')%list) end
    | (Throw e, fs', t) => (Throw e, fs', t)
    end.

(** [try { m } catch (e) { handler e }] *)
Definition try_catch {A} (m : M A) (handler : Exn -> M A) : M A :=
  fun fs =>
    match m fs with
    | (Ok a, fs', t) => (Ok a, fs', t)
    | (Throw e, fs', t) =>
        match handler e fs' with (r, fs'', t') => (r, fs'', (t ++ t')%list) end
    end.

Definition emit (e : Event) : M unit := fun fs => (Ok tt, fs, [e]).

Definition get_files : M Files := fun fs => (Ok fs, fs, []).

Definition put_files (fs : Files) : M unit := fun _ => (Ok tt, fs, []).

Declare Scope monitor_scope.
Delimit Scope monitor_scope with monitor.

Notation "x <- m ;; k" := (bind m (fun x => k))
  (at level 61, m at next level, right associativity) : monitor_scope.
Notation "m ;; k" := (bind m (fun _ => k))
  (at level 61, right associativity) : monitor_scope.

Local Open Scope monitor_scope.

Definition result_of {A} (r : Result A * Files * list Event) : Result A :=
  fst (fst r).
Definition files_of {A} (r : Result A * Files * list Event) : Files :=
  snd (fst r).
Definition trace_of {A} (r : Result A * Files * list Event) : list Event :=
  snd r.

Definition truthy_opt (o : option string) : bool := Str.truthy (or_empty o).

(** ** Persistence *)

Definition empty_meta : Meta := mkMeta None None.

(** [loadMeta] (lines 96-103), on a file that does not hold [null]. *)
Definition loadMeta : M Meta :=
  try_catch
    (emit (FsRead META_FILE) ;;
     fs <- get_files ;;
     match meta_file fs with
     | Absent => ret empty_meta
     | Garbage => throw (ReadFailed META_FILE)
     | Parsed m => ret m
     end)
    (fun _ => ret empty_meta).

(** [loadLastSeen] (lines 78-88); the result is the [offers] field. *)
Definition loadLastSeen : M (list string) :=
  try_catch
    (emit (FsRead STORAGE_FILE) ;;
     fs <- get_files ;;
     match seen_file fs with
     | Absent => ret []
     | Garbage => throw (ReadFailed STORAGE_FILE)
     | Parsed Falsy => ret []
     | Parsed NoOffersArray => ret []
     | Parsed (OffersArray l) => ret l
     end)
    (fun _ =>
       emit (Console Warn
         (Plain "Warning: Could not read last seen file, starting with empty list.")) ;;
       ret []).

Section Persistence.

Variable W : Outside.

(** [saveMeta] (lines 105-107).  A failed write leaves the file as it
    was. *)
Definition saveMeta (m : Meta) : M unit :=
  emit (WriteMeta m) ;;
  if writable W META_FILE then
    fs <- get_files ;;
    put_files (mkFiles (Parsed m) (seen_file fs))
  else throw (WriteFailed META_FILE).

(** [saveLastSeen] (lines 90-94). *)
Definition saveLastSeen (offers : list string) : M unit :=
  emit (WriteSeen offers) ;;
  if writable W STORAGE_FILE then
    fs <- get_files ;;
    put_files (mkFiles (meta_file fs) (Parsed (OffersArray offers)))
  else throw (WriteFailed STORAGE_FILE).

End Persistence.

(** ** The notifier *)

(** [NOTIFY_METHOD] (line 66). *)
Definition NOTIFY_METHOD (H : Host) : string :=
  Str.toLowerCase (Str.or_else (or_empty (env_NOTIFY_METHOD H)) "console").

Definition offer_line (o : Offer) : string :=
  Str.bullet ++ " " ++ title o ++ " " ++ Str.emdash ++ " " ++ url o.

(** The message of lines 174-175. *)
Definition message_of (ts : string) (newOffers : list Offer) : string :=
  "Neue Wohnungsangebote gefunden (" ++ ts ++ "):" ++ Str.newline ++
  Str.join Str.newline (map offer_line newOffers).

Section Notifier.

Variable H : Host.
Variable W : Outside.

(** [await axios.post(url, body)] *)
Definition post (url : string) (body : Payload) : M unit :=
  emit (HttpPost url body) ;;
  if axios_post W url body then ret tt else throw PostFailed.

Definition telegram (message : string) : M unit :=
  if negb (truthy_opt (TELEGRAM_BOT_TOKEN H)) || negb (truthy_opt (TELEGRAM_CHAT_ID H))
  then emit (Console Error (Plain
    "Telegram selected but TELEGRAM_BOT_TOKEN or TELEGRAM_CHAT_ID is missing in env."))
  else
    try_catch
      (post ("https://api.telegram.org/bot" ++ or_empty (TELEGRAM_BOT_TOKEN H)
               ++ "/sendMessage")
            (TelegramBody (or_empty (TELEGRAM_CHAT_ID H)) message) ;;
       emit (Console Log (Plain "Sent Telegram notification")))
      (fun err => emit (Console Error (WithError "Telegram notify error" err))).

Definition webhook (message : string) : M unit :=
  if negb (truthy_opt (WEBHOOK_URL H))
  then emit (Console Error (Plain
    "Webhook selected but WEBHOOK_URL is missing in env."))
  else
    try_catch
      (post (or_empty (WEBHOOK_URL H)) (WebhookBody message) ;;
       emit (Console Log (Plain "Sent webhook notification")))
      (fun err => emit (Console Error (WithError "Webhook notify error" err))).

(** The [switch] of lines 177-215. *)
Definition dispatch (method message : string) : M unit :=
  if String.eqb method "telegram" then telegram message
  else if String.eqb method "webhook" then webhook message
  else if String.eqb method "email" then emit (Console Log (EmailDraft message))
  else emit (Console Log (Plain message)).

(** [notifyNewOffers] (lines 171-216). *)
Definition notifyNewOffers (newOffers : list Offer) : M unit :=
  if length newOffers =? 0 then ret tt
  else dispatch (NOTIFY_METHOD H) (message_of (now W) newOffers).

End Notifier.

(** ** One cycle *)

(** The filter of line 261. *)
Definition differ (offers : list Offer) (lastSeenIds : list string) : list Offer :=
  filter (fun o => negb (JsSet.has (id o) lastSeenIds)) offers.

(** [newOffers.forEach(o => lastSeenIds.add(o.id))] (line 268). *)
Definition add_all (newOffers : list Offer) (lastSeenIds : list string)
  : list string :=
  fold_left (fun s o => JsSet.add (id o) s) newOffers lastSeenIds.

(** The diff step of the cycle: nothing happens but the filter. *)
Definition diff_step (offers : list Offer) (lastSeenIds : list string)
  : M (list Offer) :=
  emit (Call Differ) ;;
  ret (differ offers lastSeenIds).

Definition lift_option {A} (e : Exn) (o : option A) : M A :=
  match o with Some a => ret a | None => throw e end.

(** The line of the outer [catch] of [checkOnce] (line 274). *)
Definition processing_error (err : Exn) : Event :=
  Console Error (WithError "Fetch or processing error:" err).

Section Cycle.

Variable H : Host.
Variable W : Outside.

Definition request_headers (meta : Meta) : Headers :=
  mkHeaders "stwdo-offer-monitor/1.0 (+https://github.com)"
    (if truthy_opt (etag meta) then etag meta else None)
    (if truthy_opt (lastModified meta) then lastModified meta else None).

Definition validateStatus (s : nat) : bool :=
  ((200 <=? s) && (s <? 300)) || (s =? 304).

(** [await axios(axiosConfig)]: the validated response. *)
Definition fetch (headers : Headers)
  : M (nat * option string * option string * option string) :=
  emit (HttpGet headers) ;;
  match axios_get W headers with
  | NoReply => throw NetworkError
  | Response status e lm data =>
      if validateStatus status then ret (status, e, lm, data)
      else throw (BadStatus status)
  end.

(** Lines 242-244. *)
Definition update_meta (meta : Meta) (etag_header lm_header : option string)
  : Meta :=
  mkMeta (if truthy_opt etag_header then etag_header else etag meta)
         (if truthy_opt lm_header then lm_header else lastModified meta).

(** Lines 258-272, once the seen-set is loaded. *)
Definition report (offers : list Offer) (last : list string) : M unit :=
  let lastSeenIds := JsSet.of_array last in
  newOffers <- diff_step offers lastSeenIds ;;
  if 0 <? length newOffers then
    emit (Console Log (Detected (now W) (map title newOffers))) ;;
    emit (Call Notifier) ;;
    notifyNewOffers H W newOffers ;;
    saveLastSeen W (add_all newOffers lastSeenIds)
  else
    emit (Console Log (NoNewOffers (now W) (length offers))).

(** Lines 241-272: the cycle after a response other than 304. *)
Definition process (meta : Meta) (etag_header lm_header data : option string)
  : M unit :=
  saveMeta W (update_meta meta etag_header lm_header) ;;
  let html := or_empty data in
  emit (Call Extractor) ;;
  offers <- lift_option InvalidURL (extractOffersFromHtml H html) ;;
  last <- try_catch
            (l <- loadLastSeen ;; ret (Some l))
            (fun _ =>
               emit (Console Error (Plain
                 "Failed to load last seen offers, skipping this check to avoid data loss.")) ;;
               ret None) ;;
  match last with
  | None => ret tt
  | Some l => report offers l
  end.

(** [checkOnce] (lines 219-276). *)
Definition checkOnce : M unit :=
  meta <- loadMeta ;;
  let headers := request_headers meta in
  try_catch
    (res <- fetch headers ;;
     match res with
     | (status, etag_header, lm_header, data) =>
         if status =? 304 then emit (Console Log (NotModified (now W)))
         else process meta etag_header lm_header data
     end)
    (fun err => emit (processing_error err)).

End Cycle.

(** ** Sample inputs *)

Module Sample.

Definition plain_char (c : ascii) : bool :=
  let n := Str.code c in
  ((48 <=? n) && (n <=? 57)) || ((65 <=? n) && (n <=? 90)) ||
  ((97 <=? n) && (n <=? 122)) || (n =? 47) || (n =? 45) || (n =? 95).

Fixpoint all_plain (s : string) : bool :=
  match s with
  | EmptyString => true
  | String c r => plain_char c && all_plain r
  end.

(** [new URL(ref, MONITOR_URL).toString()] for the default [MONITOR_URL],
    on the references it leaves as they are behind the origin: one leading
    slash, then letters, digits, [-], [_] and [/].  The samples use such
    references only; elsewhere this resolver answers [None]. *)
Definition resolve (ref : string) : option string :=
  if Str.startsWith "/" ref && negb (Str.startsWith "//" ref) && all_plain ref
  then Some ("https://www.stwdo.de" ++ ref) else None.

(** A page whose queries find the given teasers and anchors, the anchors
    outside every container of [containers]. *)
Definition page (ts : list Teaser) (anchors : list Anchor) : Document :=
  mkDocument ts (fun _ => 0) (fun _ => []) anchors.

(** A host on which every markup parses to [doc]. *)
Definition host (doc : Document) (method token chat hook : option string)
  : Host :=
  mkHost (fun _ => doc) resolve method token chat hook.

(** The server answers [status] with the body [<html>] and no validators;
    posts resolve or not as [post_ok] says; both files can be written. *)
Definition outside (status : nat) (post_ok : bool) : Outside :=
  mkOutside (fun _ => Response status None None (Some "<html>"))
            (fun _ _ => post_ok) (fun _ => true) "2.11.2026, 12:00:00".

Definition offer1 : string := "https://www.stwdo.de/wohnen/angebot/1".

(** Two teaser cards with the same [data-href] and different headlines. *)
Definition twice : Document :=
  page [mkTeaser (Some offer1) "" "Erstes Zimmer";
        mkTeaser (Some offer1) "" "Zweites Zimmer"] [].

(** The same two candidates as anchors, no teaser card. *)
Definition twice_anchors : Document :=
  page [] [mkAnchor (Some offer1) "Erstes Zimmer";
           mkAnchor (Some offer1) "Zweites Zimmer"].

(** Scenario F: no teaser card, one anchor. *)
Definition scenario_F : Document :=
  page [] [mkAnchor (Some "/wohnen/angebot/123") "Zimmer frei"].

(** One teaser card. *)
Definition one_card : Document :=
  page [mkTeaser (Some "/wohnen/angebot/7") "Dortmund" " Apartment "] [].

(** One teaser card, and beside it an anchor the fallback would accept. *)
Definition card_and_anchor : Document :=
  page [mkTeaser (Some "/wohnen/angebot/7") "Dortmund" " Apartment "]
       [mkAnchor (Some "/wohnen/angebot/123") "Zimmer frei"].

(** The telegram channel with its credentials, written in mixed case. *)
Definition telegram_host : Host :=
  host one_card (Some "Telegram") (Some "t") (Some "c") None.

(** The telegram channel without its bot token (scenario E). *)
Definition tokenless_host : Host :=
  host one_card (Some "telegram") None (Some "c") None.

(** A method that is none of the four names. *)
Definition pager_host : Host :=
  host one_card (Some "Pager") None None None.

(** Both files as an earlier cycle left them. *)
Definition files1 : Files :=
  mkFiles (Parsed (mkMeta (Some "v1") None)) (Parsed (OffersArray [offer1])).

(** No meta file, and a seen-set file that cannot be parsed. *)
Definition files_garbage : Files := mkFiles Absent Garbage.

(** No file yet. *)
Definition files_none : Files := mkFiles Absent Absent.

(** The server answers 200 with the validator [etag_header]. *)
Definition outside_etag (etag_header : option string) : Outside :=
  mkOutside (fun _ => Response 200 etag_header None (Some "<html>"))
            (fun _ _ => true) (fun _ => true) "2.11.2026, 12:00:00".

(** As [outside 200 true], with a seen-set file that cannot be written. *)
Definition outside_readonly : Outside :=
  mkOutside (fun _ => Response 200 None None (Some "<html>"))
            (fun _ _ => true)
            (fun f => match f with STORAGE_FILE => false | META_FILE => true end)
            "2.11.2026, 12:00:00".

(** A page with a teaser card whose link [//] names no host: [URL] throws
    on it, and the resolver answers [None]. *)
Definition unresolved_host : Host :=
  host (page [mkTeaser (Some "//") "" "Zimmer"] []) None None None None.

(** Three teaser cards, the third with the link of the first. *)
Definition three_cards : Document :=
  page [mkTeaser (Some "/wohnen/angebot/1") "" "Eins";
        mkTeaser (Some "/wohnen/angebot/2") "" "Zwei";
        mkTeaser (Some "/wohnen/angebot/1") "" "Drei"] [].

(** An anchor to another site that names a keyword, an internal anchor that
    names none, and the anchor of scenario F. *)
Definition mixed_anchors : Document :=
  page [] [mkAnchor (Some "https://example.org/wohnung") "Wohnung mieten";
           mkAnchor (Some "/impressum") "Impressum";
           mkAnchor (Some "/wohnen/angebot/123") "Zimmer frei"].

End Sample.

(** ** Notions used by the statements *)

(** What [loadMeta] and [loadLastSeen] make of the files. *)
Definition stored_meta (fs : Files) : Meta :=
  match meta_file fs with Parsed m => m | _ => empty_meta end.

Definition stored_seen (fs : Files) : list string :=
  match seen_file fs with Parsed (OffersArray l) => l | _ => [] end.

(** The warning of [loadLastSeen], given when the file is there and cannot
    be read. *)
Definition seen_warning (fs : Files) : list Event :=
  match seen_file fs with
  | Garbage =>
      [Console Warn
         (Plain "Warning: Could not read last seen file, starting with empty list.")]
  | _ => []
  end.

(** What [notifyNewOffers] does; it does not depend on the files. *)
Definition notify_trace (H : Host) (W : Outside) (newOffers : list Offer)
  : list Event :=
  trace_of (notifyNewOffers H W newOffers (mkFiles Absent Absent)).

(** The events the notifier can cause: a post and console lines. *)
Definition notifier_event (e : Event) : Prop :=
  match e with
  | HttpPost _ _ | Console _ _ => True
  | _ => False
  end.

(** [keeps P O L]: [L] is [O] with the elements outside [P] left out, in
    the order of [O]. *)
Inductive keeps (P : Offer -> Prop) : list Offer -> list Offer -> Prop :=
| keeps_nil : keeps P [] []
| keeps_take o O L : P o -> keeps P O L -> keeps P (o :: O) (o :: L)
| keeps_skip o O L : ~ P o -> keeps P O L -> keeps P (o :: O) L.

(** Every entry is filed under the id of its offer. *)
Definition keyed (m : OffersMap) : Prop :=
  Forall (fun e => id (snd e) = fst e) m.

(** The invariant of [offersMap] during a pass. *)
Definition sound (m : OffersMap) : Prop := keyed m /\ NoDup (JsMap.keys m).

(** A teaser card the structural pass does not skip (line 123). *)
Definition has_href (el : Teaser) : bool :=
  Str.truthy (or_empty (data_href el)).

(** [ids] are the ids of the candidates [l], one for one, in order. *)
Definition ids_of {A : Type} (H : Host) (ref : A -> string)
  (l : list A) (ids : list string) : Prop :=
  Forall2 (fun el k => absolute H (ref el) = Some k) l ids.

(** The anchor of scenario F. *)
Definition zimmer_frei : Anchor :=
  mkAnchor (Some "/wohnen/angebot/123") "Zimmer frei".

(** A trace without extraction, diff, notification and file write. *)
Definition idle (t : list Event) : Prop :=
  (forall c, ~ In (Call c) t) /\
  (forall m, ~ In (WriteMeta m) t) /\
  (forall l, ~ In (WriteSeen l) t).

(** The sentence of the specification on an unparseable seen-set file: the
    cycle stops without extraction, diff, notification and file write. *)
Definition aborts_on_unparseable_seen_file : Prop :=
  forall (H : Host) (W : Outside) (fs : Files),
    seen_file fs = Garbage -> idle (trace_of (checkOnce H W fs)).

(** A string of ASCII characters. *)
Fixpoint ascii_only (s : string) : bool :=
  match s with
  | EmptyString => true
  | String c r => (Str.code c <? 128) && ascii_only r
  end.

(** The three methods with a channel of their own. *)
Definition channel_names : list string := ["telegram"; "webhook"; "email"].

(** A status of the 2xx class. *)
Definition success (status : nat) : bool := (200 <=? status) && (status <? 300).

(** A header that came with a value. *)
Definition present (header : option string) : bool := truthy_opt header.

(** ** The meta file as it can be on disk *)

(** What [readJson] can find in [stwdo-meta.json]; [loadMeta] returns it
    unchecked (lines 96-103).  [NullPayload] is the JSON value [null].
    [Fields m] is any other value, read through its fields [etag] and
    [lastModified], which hold strings where they are present.  A payload one
    of whose two fields holds something else than a string is not
    represented. *)
Inductive MetaPayload : Type :=
| NullPayload
| Fields (m : Meta).

Record Disk := mkDisk {
  disk_meta : File MetaPayload;
  disk_seen : File SeenPayload
}.

(** How a call of [checkOnce] ends: the promise is fulfilled, or it is
    rejected with an error that left the function. *)
Inductive Ending := Returns | Rejects.

(** The files as the cycle reads them, when there is a reading: with [null]
    in the meta file, [meta.etag] (line 222) throws. *)
Definition readable (d : Disk) : option Files :=
  match disk_meta d with
  | Absent => Some (mkFiles Absent (disk_seen d))
  | Garbage => Some (mkFiles Garbage (disk_seen d))
  | Parsed (Fields m) => Some (mkFiles (Parsed m) (disk_seen d))
  | Parsed NullPayload => None
  end.

Definition on_disk (fs : Files) : Disk :=
  mkDisk match meta_file fs with
         | Absent => Absent
         | Garbage => Garbage
         | Parsed m => Parsed (Fields m)
         end
         (seen_file fs).

(** [checkOnce] (lines 219-276) for any content of the meta file.  With
    [null] there, [loadMeta] returns it and line 222 throws a [TypeError]
    before the [try] of line 234 is entered: the call is rejected right after
    the read.  With anything else the cycle is the one of [checkOnce] on the
    fields read. *)
Definition checkOnce_on_disk (H : Host) (W : Outside) (d : Disk)
  : Ending * Disk * list Event :=
  match readable d with
  | None => (Rejects, d, [FsRead META_FILE])
  | Some fs =>
      let r := checkOnce H W fs in
      (match result_of r with Ok _ => Returns | Throw _ => Rejects end,
       on_disk (files_of r), trace_of r)
  end.

(** The ids on record. *)
Definition disk_ids (d : Disk) : list string :=
  match disk_seen d with Parsed (OffersArray l) => l | _ => [] end.

(** ** The main loop *)

(** What happens during a run of [main]: the events of the cycles, the line
    of the [catch] of the loop, and the waits.  [D] is the type of what
    [sleep] is called with; of the number [POLL_INTERVAL_SECONDS * 1000]
    nothing is modelled but that it is the same at every tick. *)
Inductive Beat (D : Type) : Type :=
| During (e : Event)
| Caught                 (* console.error("Main loop error:", err) *)
| Sleep (delay : D).     (* await sleep(delay) *)

Arguments During {D} e.
Arguments Caught {D}.
Arguments Sleep {D} delay.

(** The loop of [main] (lines 284-291), as far as the ticks of [ws] go: one
    outside world for each tick. *)
Fixpoint ticks {D : Type} (H : Host) (delay : D) (ws : list Outside)
  (d : Disk) : Disk * list (Beat D) :=
  match ws with
  | [] => (d, [])
  | W :: rest =>
      let r := checkOnce_on_disk H W d in
      let next := ticks H delay rest (snd (fst r)) in
      (fst next,
       (map During (snd r) ++
        match fst (fst r) with Returns => [] | Rejects => [Caught] end ++
        Sleep delay :: snd next)%list)
  end.

(** [main] (lines 280-292) up to the ticks of [ws].  [interval_text] is what
    line 282 prints for [POLL_INTERVAL_SECONDS]. *)
Definition main {D : Type} (H : Host) (MONITOR_URL interval_text : string)
  (delay : D) (ws : list Outside) (d : Disk) : Disk * list (Beat D) :=
  let next := ticks H delay ws d in
  (fst next,
   (During (Console Log
      (Plain ("Starting STWDO offer monitor for: " ++ MONITOR_URL)))
    :: During (Console Log
         (Plain ("Polling interval: " ++ interval_text ++ "s")))
    :: snd next)%list).

Module SampleDisk.

(** A disk whose meta file holds [null]. *)
Definition disk_null : Disk :=
  mkDisk (Parsed NullPayload) (Parsed (OffersArray [Sample.offer1])).

(** The disk of [Sample.files1]. *)
Definition disk1 : Disk :=
  mkDisk (Parsed (Fields (mkMeta (Some "v1") None)))
         (Parsed (OffersArray [Sample.offer1])).

(** No file yet. *)
Definition disk_none : Disk := mkDisk Absent Absent.

End SampleDisk.

(** One tick of a monitor whose meta file holds [null]. *)
Definition stuck_tick {D : Type} (delay : D) : list (Beat D) :=
  [During (FsRead META_FILE); Caught; Sleep delay].

(** ** Notions used by the statement on the fallback *)

(** The words of the pattern of line 156. *)
Definition keywords : list string :=
  ["wohn"; "zimmer"; "apartment"; "angebot"; "bewerb"].

(** [case_variant w k]: [w] is [k] with some of its small letters written
    as capitals. *)
Inductive case_variant : string -> string -> Prop :=
| variant_nil : case_variant "" ""
| variant_same c w k :
    case_variant w k -> case_variant (String c w) (String c k)
| variant_capital c w k :
    97 <= Str.code c <= 122 -> case_variant w k ->
    case_variant (String (Str.byte (Str.code c - 32)) w) (String c k).

(** A word of small letters a-z. *)
Fixpoint small_letters (k : string) : bool :=
  match k with
  | EmptyString => true
  | String c r =>
      (97 <=? Str.code c) && (Str.code c <=? 122) && small_letters r
  end.

(** ** Notions used by the further properties *)

(** The value filed under [k]. *)
Fixpoint lookup (k : string) (m : OffersMap) : option Offer :=
  match m with
  | [] => None
  | (k', v) :: r => if String.eqb k' k then Some v else lookup k r
  end.

(** The members of [l], each at the place where it comes first. *)
Fixpoint firsts (l : list string) : list string :=
  match l with
  | [] => []
  | x :: r => x :: filter (fun y => negb (String.eqb x y)) (firsts r)
  end.

(** The first container that is on the page and holds an anchor. *)
Definition first_container (doc : Document) : option string :=
  find (fun sel => (0 <? count doc sel) && (0 <? length (find_anchors doc sel)))
       containers.

(** The page with the cards and anchors the extractor acts on, and nothing
    else. *)
Definition candidates_only (doc : Document) : Document :=
  mkDocument (filter has_href (teaserList doc)) (fun _ => 0) (fun _ => [])
             (filter accepted (fallback_anchors doc)).

Definition is_post (e : Event) : bool :=
  match e with HttpPost _ _ => true | _ => false end.


Definition is_seen_write (e : Event) : bool :=
  match e with WriteSeen _ => true | _ => false end.

Definition is_meta_write (e : Event) : bool :=
  match e with WriteMeta _ => true | _ => false end.

Definition is_sleep {D : Type} (b : Beat D) : bool :=
  match b with Sleep _ => true | _ => false end.

Definition is_caught {D : Type} (b : Beat D) : bool :=
  match b with Caught => true | _ => false end.

(** A record as the extractor builds it: the link twice, and a label. *)
Definition well_formed (o : Offer) : Prop :=
  url o = id o /\ id o <> "" /\ title o <> "".

(** A resolver that never answers the empty string, as the serialisation of
    a URL never is. *)
Definition resolves_to_urls (H : Host) : Prop :=
  forall ref u, resolveURL H ref = Some u -> u <> "".

Definition is_console (e : Event) : bool :=
  match e with Console _ _ => true | _ => false end.

Definition is_error_line (e : Event) : bool :=
  match e with Console Error _ => true | _ => false end.

(** The address of the bot call of the telegram channel (line 184). *)
Definition telegram_url (H : Host) : string :=
  "https://api.telegram.org/bot" ++ or_empty (TELEGRAM_BOT_TOKEN H) ++
  "/sendMessage".

(** * Properties *)

(** ** The map and the set *)

Lemma JsMap_has_keys (k : string) (m : OffersMap) :
  JsMap.has k m = true <-> In k (JsMap.keys m).
Proof.
  unfold JsMap.has, JsMap.keys. rewrite existsb_exists. split.
  - intros [e [He Hk]]. apply String.eqb_eq in Hk. subst k. now apply in_map.
  - intros Hin. apply in_map_iff in Hin. destruct Hin as [e [Hk He]].
    exists e. split; [exact He | now apply String.eqb_eq].
Qed.

Lemma JsMap_keys_set (k : string) (v : Offer) (m : OffersMap) :
  JsMap.keys (JsMap.set k v m) =
  if JsMap.has k m then JsMap.keys m else (JsMap.keys m ++ [k])%list.
Proof.
  induction m as [|[k' v'] r IH]; [reflexivity|].
  unfold JsMap.keys in *. cbn [JsMap.set JsMap.has existsb fst].
  destruct (String.eqb k' k) eqn:E; cbn [map fst orb]; [reflexivity|].
  rewrite IH. unfold JsMap.has.
  now destruct (existsb (fun e : string * Offer => String.eqb (fst e) k) r).
Qed.

Lemma keyed_set (k : string) (v : Offer) (m : OffersMap) :
  id v = k -> keyed m -> keyed (JsMap.set k v m).
Proof.
  intros Hv. induction 1 as [|[k' v'] r Hk Hr IH]; simpl.
  - constructor; [exact Hv | constructor].
  - destruct (String.eqb k' k) eqn:E.
    + apply String.eqb_eq in E. subst k'. constructor; [exact Hv | exact Hr].
    + constructor; [exact Hk | exact IH].
Qed.

Lemma keyed_ids (m : OffersMap) :
  keyed m -> map id (JsMap.values m) = JsMap.keys m.
Proof.
  induction 1 as [|[k v] r Hk Hr IH]; simpl; [reflexivity|].
  simpl in Hk. now rewrite Hk, IH.
Qed.

Lemma NoDup_keys_set (k : string) (v : Offer) (m : OffersMap) :
  NoDup (JsMap.keys m) -> NoDup (JsMap.keys (JsMap.set k v m)).
Proof.
  intros Hm. rewrite JsMap_keys_set.
  destruct (JsMap.has k m) eqn:E; [exact Hm|].
  apply NoDup_app; [exact Hm | repeat constructor; intros [] | ].
  intros x Hx [Hk|[]]. subst x.
  apply JsMap_has_keys in Hx. congruence.
Qed.

Lemma JsSet_has_In (x : string) (s : list string) :
  JsSet.has x s = true <-> In x s.
Proof.
  unfold JsSet.has. rewrite existsb_exists. split.
  - intros [y [Hy E]]. apply String.eqb_eq in E. now subst y.
  - intros Hx. exists x. split; [exact Hx | apply String.eqb_refl].
Qed.

Lemma JsSet_add_In (x y : string) (s : list string) :
  In y (JsSet.add x s) <-> y = x \/ In y s.
Proof.
  unfold JsSet.add. destruct (JsSet.has x s) eqn:E.
  - apply JsSet_has_In in E. split; [now right | intros [->|Hy]; assumption].
  - rewrite in_app_iff. simpl. intuition.
Qed.

Lemma JsSet_of_array_fold (l acc : list string) (y : string) :
  In y (fold_left (fun s x => JsSet.add x s) l acc) <-> In y acc \/ In y l.
Proof.
  revert acc. induction l as [|x r IH]; intros acc; simpl.
  - intuition.
  - rewrite IH, JsSet_add_In. intuition.
Qed.

Lemma JsSet_of_array_In (l : list string) (y : string) :
  In y (JsSet.of_array l) <-> In y l.
Proof.
  unfold JsSet.of_array. rewrite JsSet_of_array_fold. simpl. intuition.
Qed.

Lemma add_all_In (newOffers : list Offer) (s : list string) (y : string) :
  In y (add_all newOffers s) <-> In y s \/ In y (map id newOffers).
Proof.
  unfold add_all. revert s. induction newOffers as [|o r IH]; intros s; simpl.
  - intuition.
  - rewrite IH, JsSet_add_In. intuition.
Qed.

(** ** The extractor *)

Lemma each_app {A S : Type} (f : S -> A -> option S) (l1 l2 : list A) (s : S) :
  each f (l1 ++ l2)%list s =
  match each f l1 s with Some s' => each f l2 s' | None => None end.
Proof.
  revert s. induction l1 as [|a r IH]; intros s; simpl; [reflexivity|].
  destruct (f s a); [apply IH | reflexivity].
Qed.

Lemma each_invariant {A S : Type} (P : S -> Prop) (f : S -> A -> option S) :
  (forall s a s', P s -> f s a = Some s' -> P s') ->
  forall l s s', P s -> each f l s = Some s' -> P s'.
Proof.
  intros Hstep. induction l as [|a r IH]; intros s s' Hs; simpl.
  - intros E. injection E as <-. exact Hs.
  - destruct (f s a) as [s1|] eqn:E; [|discriminate].
    apply IH. eapply Hstep; eassumption.
Qed.

Section ExtractorFacts.

Variable H : Host.

Lemma teaser_callback_sound (m : OffersMap) (el : Teaser) (m' : OffersMap) :
  sound m -> teaser_callback H m el = Some m' -> sound m'.
Proof.
  intros [Hk Hn]. unfold teaser_callback.
  destruct (negb (Str.truthy (or_empty (data_href el)))).
  - intros E. injection E as <-. now split.
  - destruct (absolute H (or_empty (data_href el))) as [abs|]; [|discriminate].
    intros E. injection E as <-. split.
    + now apply keyed_set.
    + now apply NoDup_keys_set.
Qed.

(** The callback of the fallback pass adds an entry for an accepted anchor
    whose id is not yet there, and does nothing else. *)
Lemma anchor_callback_eq (m : OffersMap) (el : Anchor) :
  anchor_callback H m el =
  if accepted el then
    match absolute H (or_empty (href el)) with
    | None => None
    | Some abs =>
        if JsMap.has abs m then Some m
        else Some (JsMap.set abs
               (mkOffer abs (Str.or_else (Str.trim (text el)) abs) abs) m)
    end
  else Some m.
Proof.
  unfold anchor_callback, accepted.
  destruct (or_empty (href el)) as [|c r] eqn:E; simpl Str.truthy; cbv iota.
  - reflexivity.
  - simpl negb. cbv iota.
    destruct (isInternal (String c r) &&
              hasKeywords (Str.trim (text el) ++ String c r)); [|reflexivity].
    destruct (absolute H (String c r)) as [abs|]; [|reflexivity].
    now destruct (JsMap.has abs m).
Qed.

Lemma anchor_callback_sound (m : OffersMap) (el : Anchor) (m' : OffersMap) :
  sound m -> anchor_callback H m el = Some m' -> sound m'.
Proof.
  intros [Hk Hn]. rewrite anchor_callback_eq.
  destruct (accepted el); [|intros E; injection E as <-; now split].
  destruct (absolute H (or_empty (href el))) as [abs|]; [|discriminate].
  destruct (JsMap.has abs m); intros E; injection E as <-; [now split|].
  split; [now apply keyed_set | now apply NoDup_keys_set].
Qed.

Lemma anchor_callback_keys (m : OffersMap) (el : Anchor) (m' : OffersMap) :
  anchor_callback H m el = Some m' ->
  forall k, In k (JsMap.keys m') <->
    In k (JsMap.keys m) \/
    (accepted el = true /\ absolute H (or_empty (href el)) = Some k).
Proof.
  rewrite anchor_callback_eq. intros E k.
  destruct (accepted el).
  - destruct (absolute H (or_empty (href el))) as [abs|]; [|discriminate].
    destruct (JsMap.has abs m) eqn:Hh; injection E as <-.
    + apply JsMap_has_keys in Hh. split; [now left|].
      intros [Hk|[_ Ek]]; [exact Hk | injection Ek as <-; exact Hh].
    + rewrite JsMap_keys_set, Hh, in_app_iff. simpl. split.
      * intros [Hk|[<-|[]]]; [now left | now right].
      * intros [Hk|[_ Ek]]; [now left | injection Ek as <-; right; now left].
  - injection E as <-. split; [now left | intros [Hk|[Hf _]]; [exact Hk | discriminate]].
Qed.

Lemma fallback_keys (l : list Anchor) (m out : OffersMap) :
  each (anchor_callback H) l m = Some out ->
  forall k, In k (JsMap.keys out) <->
    In k (JsMap.keys m) \/
    exists el, In el l /\ accepted el = true /\
               absolute H (or_empty (href el)) = Some k.
Proof.
  revert m. induction l as [|a r IH]; intros m; simpl.
  - intros E k. injection E as <-. split; [now left|].
    intros [Hk|[el [[] _]]]. exact Hk.
  - destruct (anchor_callback H m a) as [m1|] eqn:E1; [|discriminate].
    intros E k. rewrite (IH _ E k), (anchor_callback_keys _ _ E1 k). split.
    + intros [[Hk|[Ha Hr]]|[el [Hin Hel]]].
      * now left.
      * right. exists a. split; [now left | now split].
      * right. exists el. split; [now right | exact Hel].
    + intros [Hk|[el [[<-|Hin] Hel]]].
      * left. now left.
      * left. right. exact Hel.
      * right. exists el. split; [exact Hin | exact Hel].
Qed.

Lemma fallback_total (l : list Anchor) (m : OffersMap) :
  (forall el, In el l -> accepted el = true ->
              absolute H (or_empty (href el)) <> None) ->
  each (anchor_callback H) l m <> None.
Proof.
  revert m. induction l as [|a r IH]; intros m Hall; simpl; [discriminate|].
  rewrite anchor_callback_eq.
  assert (Hr : forall el, In el r -> accepted el = true ->
               absolute H (or_empty (href el)) <> None)
    by (intros el Hin; apply Hall; now right).
  destruct (accepted a) eqn:Ea; [|now apply IH].
  specialize (Hall a (or_introl eq_refl) Ea).
  destruct (absolute H (or_empty (href a))) as [abs|]; [|congruence].
  destruct (JsMap.has abs m); now apply IH.
Qed.

Lemma fallback_skips (l : list Anchor) (m : OffersMap) :
  Forall (fun el => accepted el = false) l ->
  each (anchor_callback H) l m = Some m.
Proof.
  induction 1 as [|a r Ha Hr IH]; simpl; [reflexivity|].
  now rewrite anchor_callback_eq, Ha.
Qed.

Lemma JsMap_has_JsSet (k : string) (m : OffersMap) :
  JsMap.has k m = JsSet.has k (JsMap.keys m).
Proof.
  induction m as [|[k' v'] r IH]; [reflexivity|].
  change (JsMap.has k ((k', v') :: r))
    with (String.eqb k' k || JsMap.has k r).
  change (JsSet.has k (JsMap.keys ((k', v') :: r)))
    with (String.eqb k k' || JsSet.has k (JsMap.keys r)).
  now rewrite IH, String.eqb_sym.
Qed.

Lemma keys_set_add (k : string) (v : Offer) (m : OffersMap) :
  JsMap.keys (JsMap.set k v m) = JsSet.add k (JsMap.keys m).
Proof.
  rewrite JsMap_keys_set, JsMap_has_JsSet. reflexivity.
Qed.

(** The keys after the structural pass: the ids of the cards with a
    [data-href], each at the place of its first occurrence. *)
Lemma structural_keys_from (l : list Teaser) (m m' : OffersMap) :
  each (teaser_callback H) l m = Some m' ->
  exists ids,
    ids_of H (fun el => or_empty (data_href el)) (filter has_href l) ids /\
    JsMap.keys m' = fold_left (fun s x => JsSet.add x s) ids (JsMap.keys m).
Proof.
  revert m. induction l as [|a r IH]; intros m; simpl.
  - intros E. injection E as <-. exists []. split; [constructor | reflexivity].
  - unfold teaser_callback at 1. unfold has_href at 1.
    destruct (Str.truthy (or_empty (data_href a))) eqn:Et; simpl negb; cbv iota.
    + destruct (absolute H (or_empty (data_href a))) as [abs|] eqn:Ea;
        [|discriminate].
      intros E. destruct (IH _ E) as [ids [Hids Hk]].
      exists (abs :: ids). split; [constructor; assumption|].
      simpl. now rewrite Hk, keys_set_add.
    + intros E. exact (IH _ E).
Qed.

(** The keys after the fallback pass: the ids of the accepted anchors,
    each at the place of its first occurrence. *)
Lemma fallback_keys_from (l : list Anchor) (m m' : OffersMap) :
  each (anchor_callback H) l m = Some m' ->
  exists ids,
    ids_of H (fun el => or_empty (href el)) (filter accepted l) ids /\
    JsMap.keys m' = fold_left (fun s x => JsSet.add x s) ids (JsMap.keys m).
Proof.
  revert m. induction l as [|a r IH]; intros m; simpl.
  - intros E. injection E as <-. exists []. split; [constructor | reflexivity].
  - rewrite anchor_callback_eq. destruct (accepted a) eqn:Ea.
    + destruct (absolute H (or_empty (href a))) as [abs|] eqn:Er;
        [|discriminate].
      destruct (JsMap.has abs m) eqn:Hh; intros E;
        destruct (IH _ E) as [ids [Hids Hk]];
        exists (abs :: ids); (split; [constructor; assumption|]);
        simpl; rewrite Hk.
      * rewrite JsMap_has_JsSet in Hh.
        replace (JsSet.add abs (JsMap.keys m)) with (JsMap.keys m);
          [reflexivity|].
        unfold JsSet.add. now rewrite Hh.
      * now rewrite keys_set_add.
    + intros E. exact (IH _ E).
Qed.

Lemma structural_sound (doc : Document) (m : OffersMap) :
  structural H doc = Some m -> sound m.
Proof.
  apply (each_invariant sound (teaser_callback H)).
  - intros s a s'. apply teaser_callback_sound.
  - split; constructor.
Qed.

Lemma fallback_sound (doc : Document) (m : OffersMap) :
  fallback H doc = Some m -> sound m.
Proof.
  apply (each_invariant sound (anchor_callback H)).
  - intros s a s'. apply anchor_callback_sound.
  - split; constructor.
Qed.

(** The ids of one extraction pass are pairwise distinct, whichever
    strategy produced them. *)
Lemma extractOffers_ids_NoDup (doc : Document) (out : list Offer) :
  extractOffers H doc = Some out -> NoDup (map id out).
Proof.
  unfold extractOffers.
  destruct (structural H doc) as [m|] eqn:Es; [|discriminate].
  destruct (JsMap.size m =? 0).
  - destruct (fallback H doc) as [m'|] eqn:Ef; [|discriminate].
    simpl. intros E. injection E as <-.
    destruct (fallback_sound _ Ef) as [Hk Hn]. now rewrite keyed_ids.
  - intros E. injection E as <-.
    destruct (structural_sound _ Es) as [Hk Hn]. now rewrite keyed_ids.
Qed.

(** The ids of one extraction pass come in the order of first appearance
    of the candidates, in the structural pass and in the fallback pass. *)
Lemma extractOffers_ids_in_order (doc : Document) (out : list Offer) :
  extractOffers H doc = Some out ->
  (exists ids,
     ids_of H (fun el => or_empty (data_href el))
            (filter has_href (teaserList doc)) ids /\
     ids <> [] /\ map id out = JsSet.of_array ids) \/
  (exists ids,
     ids_of H (fun el => or_empty (href el))
            (filter accepted (fallback_anchors doc)) ids /\
     map id out = JsSet.of_array ids).
Proof.
  unfold extractOffers.
  destruct (structural H doc) as [m|] eqn:Es; [|discriminate].
  destruct (JsMap.size m =? 0) eqn:Ez.
  - destruct (fallback H doc) as [m'|] eqn:Ef; [|discriminate].
    simpl. intros E. injection E as <-. right.
    destruct (fallback_keys_from _ _ Ef) as [ids [Hids Hk]].
    exists ids. split; [exact Hids|].
    destruct (fallback_sound _ Ef) as [Hkeyed _].
    now rewrite (keyed_ids Hkeyed), Hk.
  - intros E. injection E as <-. left.
    destruct (structural_keys_from _ _ Es) as [ids [Hids Hk]].
    exists ids. split; [exact Hids|].
    destruct (structural_sound _ Es) as [Hkeyed _].
    split; [|now rewrite (keyed_ids Hkeyed), Hk].
    intros ->. simpl in Hk. apply Nat.eqb_neq in Ez. apply Ez.
    unfold JsMap.size. unfold JsMap.keys in Hk.
    now rewrite <- (length_map fst), Hk.
Qed.

End ExtractorFacts.

(** C2 (the code at the failing input).  Two teaser cards carry the same
    [data-href] and different headlines.  The structural pass calls
    [offersMap.set] without asking [has] first, so the single record that
    comes out has the headline of the second card: the later candidate
    replaced the title of the first one.  The fallback pass, given the same
    two candidates as anchors, asks [has] and keeps the first title. *)
Theorem structural_pass_overwrites_duplicate (H : Host) :
  extractOffers H Sample.twice =
    Some [mkOffer Sample.offer1 "Zweites Zimmer" Sample.offer1] /\
  extractOffers H Sample.twice_anchors =
    Some [mkOffer Sample.offer1 "Erstes Zimmer" Sample.offer1].
Proof. split; reflexivity. Qed.

Lemma zimmer_frei_callback (H : Host) :
  anchor_callback H [] zimmer_frei =
  match resolveURL H "/wohnen/angebot/123" with
  | Some u => Some [(u, mkOffer u "Zimmer frei" u)]
  | None => None
  end.
Proof.
  rewrite anchor_callback_eq.
  replace (accepted zimmer_frei) with true by reflexivity.
  replace (absolute H (or_empty (href zimmer_frei)))
    with (resolveURL H "/wohnen/angebot/123") by reflexivity.
  now destruct (resolveURL H "/wohnen/angebot/123").
Qed.


(** ** The steps of a cycle, as equations *)

Lemma loadMeta_eq (fs : Files) :
  loadMeta fs = (Ok (stored_meta fs), fs, [FsRead META_FILE]).
Proof.
  unfold loadMeta, stored_meta, try_catch, bind, emit, get_files, ret, throw.
  now destruct (meta_file fs).
Qed.

Lemma loadLastSeen_eq (fs : Files) :
  loadLastSeen fs =
  (Ok (stored_seen fs), fs, FsRead STORAGE_FILE :: seen_warning fs).
Proof.
  unfold loadLastSeen, stored_seen, seen_warning, try_catch, bind, emit,
    get_files, ret, throw.
  destruct (seen_file fs) as [| |[| |l]]; reflexivity.
Qed.

Ltac run_notifier :=
  unfold notify_trace, trace_of, notifyNewOffers, dispatch, telegram, webhook,
    post, try_catch, bind, emit, ret, throw;
  repeat match goal with
         | |- context [if ?b then _ else _] => destruct b
         end.

(** [notifyNewOffers] always returns, and leaves the files alone. *)
Lemma notifyNewOffers_eq (H : Host) (W : Outside) (newOffers : list Offer)
  (fs : Files) :
  notifyNewOffers H W newOffers fs = (Ok tt, fs, notify_trace H W newOffers).
Proof. run_notifier; reflexivity. Qed.

Lemma notify_trace_events (H : Host) (W : Outside) (newOffers : list Offer) :
  Forall notifier_event (notify_trace H W newOffers).
Proof. run_notifier; simpl; repeat constructor. Qed.

Lemma diff_step_eq (offers : list Offer) (S : list string) (fs : Files) :
  diff_step offers S fs = (Ok (differ offers S), fs, [Call Differ]).
Proof. reflexivity. Qed.

Lemma saveLastSeen_eq (W : Outside) (l : list string) (fs : Files) :
  saveLastSeen W l fs =
  if writable W STORAGE_FILE
  then (Ok tt, mkFiles (meta_file fs) (Parsed (OffersArray l)), [WriteSeen l])
  else (Throw (WriteFailed STORAGE_FILE), fs, [WriteSeen l]).
Proof.
  unfold saveLastSeen, bind, emit, get_files, put_files, throw.
  now destruct (writable W STORAGE_FILE).
Qed.

Lemma saveMeta_eq (W : Outside) (m : Meta) (fs : Files) :
  saveMeta W m fs =
  if writable W META_FILE
  then (Ok tt, mkFiles (Parsed m) (seen_file fs), [WriteMeta m])
  else (Throw (WriteFailed META_FILE), fs, [WriteMeta m]).
Proof.
  unfold saveMeta, bind, emit, get_files, put_files, throw.
  now destruct (writable W META_FILE).
Qed.

(** Lines 258-272. *)
Lemma report_eq (H : Host) (W : Outside) (offers : list Offer)
  (last : list string) (fs : Files) :
  report H W offers last fs =
  let S := JsSet.of_array last in
  let newOffers := differ offers S in
  if 0 <? length newOffers then
    let t := ([Call Differ;
               Console Log (Detected (now W) (map title newOffers));
               Call Notifier] ++ notify_trace H W newOffers ++
              [WriteSeen (add_all newOffers S)])%list in
    if writable W STORAGE_FILE
    then (Ok tt,
          mkFiles (meta_file fs) (Parsed (OffersArray (add_all newOffers S))), t)
    else (Throw (WriteFailed STORAGE_FILE), fs, t)
  else (Ok tt, fs,
        [Call Differ; Console Log (NoNewOffers (now W) (length offers))]).
Proof.
  unfold report, diff_step, bind, emit, ret. cbv beta iota zeta.
  destruct (0 <? length (differ offers (JsSet.of_array last))); [|reflexivity].
  cbv beta iota. rewrite notifyNewOffers_eq, saveLastSeen_eq.
  destruct (writable W STORAGE_FILE); reflexivity.
Qed.

(** Lines 241-272. *)
Lemma process_eq (H : Host) (W : Outside) (meta : Meta)
  (e lm data : option string) (fs : Files) :
  process H W meta e lm data fs =
  let m' := update_meta meta e lm in
  if writable W META_FILE then
    let fs1 := mkFiles (Parsed m') (seen_file fs) in
    match extractOffersFromHtml H (or_empty data) with
    | None => (Throw InvalidURL, fs1, [WriteMeta m'; Call Extractor])
    | Some offers =>
        let r := report H W offers (stored_seen fs) fs1 in
        (result_of r, files_of r,
         ([WriteMeta m'; Call Extractor; FsRead STORAGE_FILE] ++
          seen_warning fs ++ trace_of r)%list)
    end
  else (Throw (WriteFailed META_FILE), fs, [WriteMeta m']).
Proof.
  unfold process, lift_option, bind, try_catch, emit, ret, throw.
  rewrite saveMeta_eq. cbv zeta.
  destruct (writable W META_FILE); [|reflexivity]. cbv beta iota.
  destruct (extractOffersFromHtml H (or_empty data)) as [offers|];
    [|reflexivity].
  cbv beta iota. rewrite loadLastSeen_eq. cbv beta iota.
  change (stored_seen (mkFiles (Parsed (update_meta meta e lm)) (seen_file fs)))
    with (stored_seen fs).
  change (seen_warning (mkFiles (Parsed (update_meta meta e lm)) (seen_file fs)))
    with (seen_warning fs).
  destruct (report H W offers (stored_seen fs)
              (mkFiles (Parsed (update_meta meta e lm)) (seen_file fs)))
    as [[r f] t].
  unfold result_of, files_of, trace_of. simpl. now rewrite app_nil_r.
Qed.

(** Lines 219-276. *)
Lemma checkOnce_eq (H : Host) (W : Outside) (fs : Files) :
  checkOnce H W fs =
  let meta := stored_meta fs in
  let h := request_headers meta in
  match axios_get W h with
  | NoReply =>
      (Ok tt, fs, [FsRead META_FILE; HttpGet h; processing_error NetworkError])
  | Response status e lm data =>
      if validateStatus status then
        if status =? 304 then
          (Ok tt, fs,
           [FsRead META_FILE; HttpGet h; Console Log (NotModified (now W))])
        else
          let r := process H W meta e lm data fs in
          (Ok tt, files_of r,
           ([FsRead META_FILE; HttpGet h] ++ trace_of r ++
            match result_of r with
            | Ok _ => []
            | Throw err => [processing_error err]
            end)%list)
      else
        (Ok tt, fs,
         [FsRead META_FILE; HttpGet h; processing_error (BadStatus status)])
  end.
Proof.
  unfold checkOnce, bind at 1. rewrite loadMeta_eq. cbv zeta.
  unfold try_catch, fetch, bind, emit, ret, throw.
  destruct (axios_get W (request_headers (stored_meta fs)))
    as [|status e lm data]; [reflexivity|].
  destruct (validateStatus status); [|reflexivity].
  cbv beta iota.
  destruct (status =? 304); [reflexivity|].
  destruct (process H W (stored_meta fs) e lm data fs) as [[[u|err] f] t];
    unfold result_of, files_of, trace_of; simpl.
  - destruct u. now rewrite app_nil_r.
  - reflexivity.
Qed.

(** One cycle spelled out: every way [checkOnce] can go, with the files it
    leaves and the events it causes. *)
Lemma checkOnce_run (H : Host) (W : Outside) (fs : Files) :
  checkOnce H W fs =
  let meta := stored_meta fs in
  let h := request_headers meta in
  let start := [FsRead META_FILE; HttpGet h] in
  match axios_get W h with
  | NoReply => (Ok tt, fs, start ++ [processing_error NetworkError])
  | Response status e lm data =>
      if validateStatus status then
        if status =? 304 then
          (Ok tt, fs, start ++ [Console Log (NotModified (now W))])
        else
          let m' := update_meta meta e lm in
          let fs1 := mkFiles (Parsed m') (seen_file fs) in
          if writable W META_FILE then
            match extractOffersFromHtml H (or_empty data) with
            | None =>
                (Ok tt, fs1,
                 start ++ [WriteMeta m'; Call Extractor;
                           processing_error InvalidURL])
            | Some offers =>
                let S := JsSet.of_array (stored_seen fs) in
                let newOffers := differ offers S in
                let loaded :=
                  start ++ [WriteMeta m'; Call Extractor; FsRead STORAGE_FILE]
                        ++ seen_warning fs in
                if 0 <? length newOffers then
                  let t :=
                    loaded ++
                    [Call Differ;
                     Console Log (Detected (now W) (map title newOffers));
                     Call Notifier] ++
                    notify_trace H W newOffers ++
                    [WriteSeen (add_all newOffers S)] in
                  if writable W STORAGE_FILE then
                    (Ok tt,
                     mkFiles (Parsed m')
                             (Parsed (OffersArray (add_all newOffers S))), t)
                  else
                    (Ok tt, fs1,
                     t ++ [processing_error (WriteFailed STORAGE_FILE)])
                else
                  (Ok tt, fs1,
                   loaded ++
                   [Call Differ;
                    Console Log (NoNewOffers (now W) (length offers))])
            end
          else
            (Ok tt, fs,
             start ++ [WriteMeta m'; processing_error (WriteFailed META_FILE)])
      else (Ok tt, fs, start ++ [processing_error (BadStatus status)])
  end%list.
Proof.
  rewrite checkOnce_eq. cbv zeta.
  destruct (axios_get W (request_headers (stored_meta fs)))
    as [|status e lm data]; [reflexivity|].
  destruct (validateStatus status); [|reflexivity].
  destruct (status =? 304); [reflexivity|].
  rewrite process_eq. cbv zeta.
  destruct (writable W META_FILE); [|reflexivity].
  destruct (extractOffersFromHtml H (or_empty data)) as [offers|];
    [|reflexivity].
  rewrite report_eq. cbv zeta.
  destruct (0 <? length (differ offers (JsSet.of_array (stored_seen fs)))).
  - destruct (writable W STORAGE_FILE);
      unfold result_of, files_of, trace_of; simpl;
      repeat rewrite <- app_assoc; simpl; try rewrite app_nil_r; reflexivity.
  - unfold result_of, files_of, trace_of; simpl.
    repeat rewrite <- app_assoc; simpl; try rewrite app_nil_r; reflexivity.
Qed.

Lemma success_valid (status : nat) :
  success status = true ->
  validateStatus status = true /\ (status =? 304) = false.
Proof.
  unfold success, validateStatus. intros Hs.
  apply andb_true_iff in Hs. destruct Hs as [Hlo Hhi].
  rewrite Hlo, Hhi. split; [reflexivity|].
  apply Nat.ltb_lt in Hhi. apply Nat.eqb_neq. lia.
Qed.

Lemma notify_trace_no (H : Host) (W : Outside) (newOffers : list Offer)
  (e : Event) :
  ~ notifier_event e -> ~ In e (notify_trace H W newOffers).
Proof.
  intros Hne Hin.
  pose proof (notify_trace_events H W newOffers) as Hall.
  rewrite Forall_forall in Hall. exact (Hne (Hall e Hin)).
Qed.

Lemma seen_warning_only (fs : Files) (e : Event) :
  In e (seen_warning fs) ->
  e = Console Warn
        (Plain "Warning: Could not read last seen file, starting with empty list.").
Proof.
  unfold seen_warning. destruct (seen_file fs); simpl; intuition.
Qed.

Lemma length_pos_nonempty {A : Type} (l : list A) :
  (0 <? length l) = true <-> l <> [].
Proof.
  destruct l; cbn; split; intros E;
    try reflexivity; try discriminate; exfalso; now apply E.
Qed.

Lemma before_first {A : Type} (x : A) (l1 l2 pre post : list A) :
  ~ In x l1 -> (l1 ++ x :: l2 = pre ++ x :: post)%list -> incl l1 pre.
Proof.
  revert pre. induction l1 as [|a r IH]; intros pre Hx E.
  - intros y [].
  - destruct pre as [|b pre']; simpl in E.
    + injection E as E1 _. exfalso. apply Hx. left. exact E1.
    + injection E as E1 E2. subst b.
      intros y [<-|Hy]; [now left|]. right.
      refine (IH pre' _ E2 y Hy). intros Hr. apply Hx. now right.
Qed.

(** ** The differ *)

Lemma keeps_functional (P : Offer -> Prop) (O L1 L2 : list Offer) :
  keeps P O L1 -> keeps P O L2 -> L1 = L2.
Proof.
  intros K1. revert L2.
  induction K1 as [|o O L Hp K IH|o O L Hp K IH]; intros L2 K2;
    inversion K2; subst; try contradiction.
  - reflexivity.
  - f_equal. now apply IH.
  - now apply IH.
Qed.

Lemma differ_keeps (O : list Offer) (S : list string) :
  keeps (fun o => ~ In (id o) S) O (differ O S).
Proof.
  induction O as [|o r IH]; simpl; [constructor|].
  destruct (JsSet.has (id o) S) eqn:E; simpl.
  - apply keeps_skip; [|exact IH].
    intros Hn. apply Hn. now apply JsSet_has_In.
  - apply keeps_take; [|exact IH].
    intros Hin. apply JsSet_has_In in Hin. congruence.
Qed.

(** C3.  For every sequence of offers [O] and every seen-set [S], the diff
    is [O] with the offers whose id is in [S] left out and the others kept
    in the order of [O]: it is the only such list, and an offer is in it
    exactly when it is in [O] and its id is not in [S].  The step changes
    nothing: the files are as before and no input or output happens; [O]
    and [S] are values the step only reads. *)
Theorem differ_correct (O : list Offer) (S : list string) :
  keeps (fun o => ~ In (id o) S) O (differ O S) /\
  (forall L, keeps (fun o => ~ In (id o) S) O L -> L = differ O S) /\
  (forall o, In o (differ O S) <-> In o O /\ ~ In (id o) S) /\
  (forall fs, diff_step O S fs = (Ok (differ O S), fs, [Call Differ])).
Proof.
  split; [apply differ_keeps|]. split; [|split].
  - intros L K. exact (keeps_functional K (differ_keeps O S)).
  - intros o. unfold differ. rewrite filter_In, negb_true_iff.
    split; intros [Hin Hs]; (split; [exact Hin|]).
    + intros Hi. apply JsSet_has_In in Hi. congruence.
    + destruct (JsSet.has (id o) S) eqn:E; [|reflexivity].
      apply JsSet_has_In in E. contradiction.
  - intros fs. reflexivity.
Qed.

Lemma differ_correct_witness :
  differ [mkOffer "a" "A" "a"; mkOffer "b" "B" "b"; mkOffer "c" "C" "c"] ["b"]
  = [mkOffer "a" "A" "a"; mkOffer "c" "C" "c"].
Proof.
  symmetry.
  apply (proj1 (proj2 (differ_correct
    [mkOffer "a" "A" "a"; mkOffer "b" "B" "b"; mkOffer "c" "C" "c"] ["b"]))).
  apply keeps_take; [simpl; intros [E|[]]; discriminate E|].
  apply keeps_skip; [simpl; intros Hn; apply Hn; now left|].
  apply keeps_take; [simpl; intros [E|[]]; discriminate E|].
  apply keeps_nil.
Defined.

(** ** The notifier *)

(** C9.  With no offer to report [notifyNewOffers] returns at once,
    whatever the method and the credentials: no message, no post, no
    console line, and the files as they were. *)
Theorem notify_nothing (H : Host) (W : Outside) (fs : Files) :
  notifyNewOffers H W [] fs = (Ok tt, fs, []).
Proof. reflexivity. Qed.

(** ** The cycle *)

(** C5.  When the server answers 304 the cycle reads the meta file, sends
    the request and logs one line.  It calls neither the extractor nor the
    differ nor the notifier, attempts no write of the meta file or of the
    seen-set file, and leaves both files as they were. *)
Theorem not_modified_is_idle (H : Host) (W : Outside) (fs : Files)
  (e lm data : option string) :
  axios_get W (request_headers (stored_meta fs)) = Response 304 e lm data ->
  checkOnce H W fs =
    (Ok tt, fs,
     [FsRead META_FILE; HttpGet (request_headers (stored_meta fs));
      Console Log (NotModified (now W))]) /\
  idle (trace_of (checkOnce H W fs)) /\
  files_of (checkOnce H W fs) = fs.
Proof.
  intros Hget.
  assert (E : checkOnce H W fs =
    (Ok tt, fs,
     [FsRead META_FILE; HttpGet (request_headers (stored_meta fs));
      Console Log (NotModified (now W))])).
  { rewrite checkOnce_run. cbv zeta. rewrite Hget. reflexivity. }
  rewrite E. split; [reflexivity|]. split; [|reflexivity].
  unfold idle, trace_of. simpl.
  repeat split; intros x Hin; repeat destruct Hin as [Hin|Hin];
    try discriminate Hin; exact Hin.
Qed.

Lemma not_modified_is_idle_witness :
  idle (trace_of (checkOnce Sample.telegram_host (Sample.outside 304 true)
                            Sample.files1)) /\
  files_of (checkOnce Sample.telegram_host (Sample.outside 304 true)
                      Sample.files1) = Sample.files1.
Proof.
  exact (proj2 (@not_modified_is_idle Sample.telegram_host
                  (Sample.outside 304 true) Sample.files1
                  None None (Some "<html>") eq_refl)).
Defined.

Ltac sift Hin :=
  unfold processing_error in Hin;
  repeat match type of Hin with
         | In _ (_ ++ _)%list =>
             apply in_app_or in Hin; destruct Hin as [Hin|Hin]
         | In _ (_ :: _) => destruct Hin as [Hin|Hin]; [try discriminate Hin|]
         | In _ [] => destruct Hin
         | _ \/ _ => destruct Hin as [Hin|Hin]; [try discriminate Hin|]
         | False => destruct Hin
         | In _ (seen_warning _) =>
             apply seen_warning_only in Hin; discriminate Hin
         | In _ (notify_trace _ _ _) =>
             exfalso; revert Hin; apply notify_trace_no; simpl; tauto
         end.

Ltac find_in :=
  first [ solve [left; reflexivity]
        | solve [right; find_in]
        | solve [apply in_or_app; left; find_in]
        | solve [apply in_or_app; right; find_in] ].

Ltac cases_of_run :=
  rewrite checkOnce_run; cbv zeta;
  repeat match goal with
         | |- context [match axios_get ?W ?h with _ => _ end] =>
             destruct (axios_get W h) as [|?status ?e ?lm ?data]
         | |- context [match extractOffersFromHtml ?H ?s with _ => _ end] =>
             destruct (extractOffersFromHtml H s) as [?offers|]
         | |- context [if ?b then _ else _] => destruct b eqn:?
         end.

Lemma incl_add_all (newOffers : list Offer) (last : list string) :
  incl last (add_all newOffers (JsSet.of_array last)).
Proof.
  intros y Hy. apply add_all_In. left. now apply JsSet_of_array_In.
Qed.

(** C8.  After a response of the 2xx class whose meta write succeeds, the
    meta file holds, and the next [loadMeta] returns, the validators of the
    response: for each of [etag] and [last-modified], the value of the header
    when the response carries one (a truthy, that is non-empty, value), and
    the value stored before otherwise. *)
Theorem meta_after_success (H : Host) (W : Outside) (fs : Files)
  (status : nat) (e lm data : option string) :
  axios_get W (request_headers (stored_meta fs)) = Response status e lm data ->
  success status = true ->
  writable W META_FILE = true ->
  let after := files_of (checkOnce H W fs) in
  In (WriteMeta (update_meta (stored_meta fs) e lm))
     (trace_of (checkOnce H W fs)) /\
  loadMeta after =
    (Ok (update_meta (stored_meta fs) e lm), after, [FsRead META_FILE]) /\
  etag (stored_meta after) =
    (if present e then e else etag (stored_meta fs)) /\
  lastModified (stored_meta after) =
    (if present lm then lm else lastModified (stored_meta fs)) /\
  (forall v, e = Some v -> v <> "" -> etag (stored_meta after) = Some v) /\
  (e = None -> etag (stored_meta after) = etag (stored_meta fs)) /\
  (forall v, lm = Some v -> v <> "" -> lastModified (stored_meta after) = Some v) /\
  (lm = None -> lastModified (stored_meta after) = lastModified (stored_meta fs)).
Proof.
  intros Hget Hs Hw after.
  destruct (success_valid _ Hs) as [Hv H304].
  assert (Hmeta : meta_file after = Parsed (update_meta (stored_meta fs) e lm)
                  /\ In (WriteMeta (update_meta (stored_meta fs) e lm))
                        (trace_of (checkOnce H W fs))).
  { subst after. rewrite checkOnce_run. cbv zeta.
    rewrite Hget, Hv, H304, Hw.
    destruct (extractOffersFromHtml H (or_empty data)) as [offers|].
    - destruct (0 <? length
                  (differ offers (JsSet.of_array (stored_seen fs))));
        [destruct (writable W STORAGE_FILE)|];
        (split; [reflexivity | simpl; auto]).
    - split; [reflexivity | simpl; auto]. }
  destruct Hmeta as [Hfile Hin].
  assert (Hst : stored_meta after = update_meta (stored_meta fs) e lm)
    by (unfold stored_meta at 1; now rewrite Hfile).
  split; [exact Hin|]. split; [rewrite loadMeta_eq; now rewrite Hst|].
  rewrite Hst. unfold update_meta, present. simpl.
  repeat split.
  - intros v -> Hne. destruct v; [contradiction | reflexivity].
  - now intros ->.
  - intros v -> Hne. destruct v; [contradiction | reflexivity].
  - now intros ->.
Qed.

Lemma meta_after_success_witness :
  etag (stored_meta (files_of
    (checkOnce Sample.telegram_host (Sample.outside_etag (Some "v2"))
               Sample.files1))) = Some "v2" /\
  etag (stored_meta (files_of
    (checkOnce Sample.telegram_host (Sample.outside_etag None)
               Sample.files1))) = Some "v1".
Proof.
  split.
  - refine (proj1 (proj2 (proj2 (proj2 (proj2
      (@meta_after_success Sample.telegram_host
         (Sample.outside_etag (Some "v2")) Sample.files1 200
         (Some "v2") None (Some "<html>") eq_refl eq_refl eq_refl)))))
      "v2" eq_refl _).
    discriminate.
  - exact (proj1 (proj2 (proj2 (proj2 (proj2 (proj2
      (@meta_after_success Sample.telegram_host
         (Sample.outside_etag None) Sample.files1 200
         None None (Some "<html>") eq_refl eq_refl eq_refl))))))
      eq_refl).
Defined.

(** C4.  Whatever a cycle writes to the seen-set file contains every id the
    cycle loaded from it.  A cycle that detects new offers, and so reaches
    the notifier, does attempt that write, and when the write succeeds the
    file holds the written list.  Hence the ids stored after a cycle
    include those stored before it: ids are added, never removed. *)
Theorem seen_set_only_grows (H : Host) (W : Outside) (fs : Files) :
  (forall w, In (WriteSeen w) (trace_of (checkOnce H W fs)) ->
     incl (stored_seen fs) w) /\
  (In (Call Notifier) (trace_of (checkOnce H W fs)) ->
     exists w,
       In (WriteSeen w) (trace_of (checkOnce H W fs)) /\
       incl (stored_seen fs) w /\
       (writable W STORAGE_FILE = true ->
        seen_file (files_of (checkOnce H W fs)) = Parsed (OffersArray w))) /\
  incl (stored_seen fs) (stored_seen (files_of (checkOnce H W fs))).
Proof.
  split; [|split].
  - intros w. cases_of_run; unfold trace_of; simpl; intros Hin; sift Hin;
      injection Hin as <-; apply incl_add_all.
  - cases_of_run; unfold trace_of, files_of; simpl fst; simpl snd;
      intros Hin;
      try (simpl in Hin; sift Hin; fail).
    + eexists. split; [find_in | split; [apply incl_add_all | reflexivity]].
    + eexists. split; [find_in | split; [apply incl_add_all | discriminate]].
  - cases_of_run; unfold files_of; simpl;
      try apply incl_refl; apply incl_add_all.
Qed.

Lemma seen_set_only_grows_witness :
  exists w,
    In (WriteSeen w)
       (trace_of (checkOnce Sample.telegram_host (Sample.outside 200 true)
                            Sample.files1)) /\
    incl (stored_seen Sample.files1) w /\
    (writable (Sample.outside 200 true) STORAGE_FILE = true ->
     seen_file (files_of (checkOnce Sample.telegram_host
                            (Sample.outside 200 true) Sample.files1)) =
     Parsed (OffersArray w)).
Proof.
  apply (proj1 (proj2 (seen_set_only_grows Sample.telegram_host
                         (Sample.outside 200 true) Sample.files1))).
  vm_compute. do 7 right. left. reflexivity.
Defined.

(** C6.  In a cycle with new offers the notifier always returns and leaves
    the files alone, whichever channel is selected, with or without its
    credentials, and whether the post resolves or is rejected.  The cycle
    then attempts the write of the seen-set with the ids of the new offers
    added, and when that write succeeds the file holds them. *)
Theorem notify_failure_does_not_block (H : Host) (W : Outside) (fs : Files)
  (status : nat) (e lm data : option string) (offers : list Offer) :
  axios_get W (request_headers (stored_meta fs)) = Response status e lm data ->
  success status = true ->
  writable W META_FILE = true ->
  extractOffersFromHtml H (or_empty data) = Some offers ->
  differ offers (JsSet.of_array (stored_seen fs)) <> [] ->
  let newOffers := differ offers (JsSet.of_array (stored_seen fs)) in
  let w := add_all newOffers (JsSet.of_array (stored_seen fs)) in
  (forall fs0, notifyNewOffers H W newOffers fs0 =
               (Ok tt, fs0, notify_trace H W newOffers)) /\
  (exists before after,
     trace_of (checkOnce H W fs) =
     (before ++ Call Notifier :: notify_trace H W newOffers ++
      WriteSeen w :: after)%list) /\
  (forall o, In o newOffers -> In (id o) w) /\
  (writable W STORAGE_FILE = true ->
   seen_file (files_of (checkOnce H W fs)) = Parsed (OffersArray w)).
Proof.
  intros Hget Hs Hw Hex Hnew newOffers w.
  destruct (success_valid _ Hs) as [Hv H304].
  apply length_pos_nonempty in Hnew.
  split; [intros fs0; apply notifyNewOffers_eq|].
  split; [|split].
  - rewrite checkOnce_run. cbv zeta.
    rewrite Hget, Hv, H304, Hw, Hex, Hnew.
    pose (before :=
      ([FsRead META_FILE; HttpGet (request_headers (stored_meta fs));
        WriteMeta (update_meta (stored_meta fs) e lm); Call Extractor;
        FsRead STORAGE_FILE] ++ seen_warning fs ++
       [Call Differ; Console Log (Detected (now W) (map title newOffers))])%list).
    destruct (writable W STORAGE_FILE); unfold trace_of; simpl.
    + exists before, []. subst before newOffers w.
      repeat (rewrite <- app_assoc; simpl). reflexivity.
    + exists before, [processing_error (WriteFailed STORAGE_FILE)].
      subst before newOffers w.
      repeat (rewrite <- app_assoc; simpl). reflexivity.
  - intros o Ho. apply add_all_In. right. now apply in_map.
  - intros Hws. rewrite checkOnce_run. cbv zeta.
    rewrite Hget, Hv, H304, Hw, Hex, Hnew, Hws. reflexivity.
Qed.

Lemma notify_failure_does_not_block_witness :
  notify_trace Sample.telegram_host (Sample.outside 200 false)
    [mkOffer "https://www.stwdo.de/wohnen/angebot/7" "Dortmund: Apartment"
             "https://www.stwdo.de/wohnen/angebot/7"] =
  [HttpPost "https://api.telegram.org/bott/sendMessage"
     (TelegramBody "c" (message_of "2.11.2026, 12:00:00"
        [mkOffer "https://www.stwdo.de/wohnen/angebot/7" "Dortmund: Apartment"
                 "https://www.stwdo.de/wohnen/angebot/7"]));
   Console Error (WithError "Telegram notify error" PostFailed)] /\
  seen_file (files_of (checkOnce Sample.telegram_host
                         (Sample.outside 200 false) Sample.files_none)) =
  Parsed (OffersArray ["https://www.stwdo.de/wohnen/angebot/7"]) /\
  seen_file (files_of (checkOnce Sample.tokenless_host
                         (Sample.outside 200 true) Sample.files_none)) =
  Parsed (OffersArray ["https://www.stwdo.de/wohnen/angebot/7"]).
Proof.
  split; [reflexivity|]. split.
  - refine (proj2 (proj2 (proj2
      (@notify_failure_does_not_block Sample.telegram_host
         (Sample.outside 200 false) Sample.files_none 200 None None
         (Some "<html>")
         [mkOffer "https://www.stwdo.de/wohnen/angebot/7"
                  "Dortmund: Apartment"
                  "https://www.stwdo.de/wohnen/angebot/7"]
         eq_refl eq_refl eq_refl eq_refl _))) eq_refl).
    discriminate.
  - refine (proj2 (proj2 (proj2
      (@notify_failure_does_not_block Sample.tokenless_host
         (Sample.outside 200 true) Sample.files_none 200 None None
         (Some "<html>")
         [mkOffer "https://www.stwdo.de/wohnen/angebot/7"
                  "Dortmund: Apartment"
                  "https://www.stwdo.de/wohnen/angebot/7"]
         eq_refl eq_refl eq_refl eq_refl _))) eq_refl).
    discriminate.
Defined.

(** ** The notification method *)

Lemma lower_char_not_lead (c : ascii) :
  (Str.code (Str.lower_char c) <? 128) = true -> (Str.code c =? 226) = false.
Proof.
  unfold Str.lower_char, Str.is_upper. intros Hc. apply Nat.eqb_neq.
  destruct ((65 <=? Str.code c) && (Str.code c <=? 90)) eqn:E.
  - apply andb_true_iff in E. destruct E as [_ E].
    apply Nat.leb_le in E. lia.
  - apply Nat.ltb_lt in Hc. lia.
Qed.

Lemma toLowerCase_cons (c : ascii) (r : string) :
  (Str.code c =? 226) = false ->
  Str.toLowerCase (String c r) = String (Str.lower_char c) (Str.toLowerCase r).
Proof.
  intros Hc. cbn [Str.toLowerCase]. rewrite Hc.
  destruct r as [|c2 [|c3 r3]]; reflexivity.
Qed.

(** On a string whose lower case is ASCII, [toLowerCase] is the folding of
    the letters A-Z. *)
Lemma toLowerCase_ascii (s : string) :
  ascii_only (Str.lower_ascii s) = true ->
  Str.toLowerCase s = Str.lower_ascii s.
Proof.
  induction s as [|c r IH]; [reflexivity|].
  cbn [Str.lower_ascii ascii_only]. intros Hs.
  apply andb_true_iff in Hs. destruct Hs as [Hc Hr].
  rewrite toLowerCase_cons by now apply lower_char_not_lead.
  now rewrite (IH Hr).
Qed.

Lemma dispatch_default (H : Host) (W : Outside) (method message : string)
  (fs : Files) :
  ~ In method channel_names ->
  dispatch H W method message fs = (Ok tt, fs, [Console Log (Plain message)]).
Proof.
  intros Hn. unfold dispatch.
  destruct (String.eqb method "telegram") eqn:E1;
    [apply String.eqb_eq in E1; exfalso; apply Hn; subst; simpl; auto|].
  destruct (String.eqb method "webhook") eqn:E2;
    [apply String.eqb_eq in E2; exfalso; apply Hn; subst; simpl; auto|].
  destruct (String.eqb method "email") eqn:E3;
    [apply String.eqb_eq in E3; exfalso; apply Hn; subst; simpl; auto|].
  reflexivity.
Qed.

(** C10.  The method is the lower case of the environment variable, or
    [console] when the variable is absent or empty, so a channel name
    written in any mix of upper and lower case selects its channel.  Every
    method that is none of [telegram], [webhook] and [email] takes the
    default branch: the notifier writes the message to standard output and
    returns, and the cycle goes on to write the seen-set. *)
Theorem method_selection (H : Host) (W : Outside) :
  (forall raw name,
     env_NOTIFY_METHOD H = Some raw -> In name channel_names ->
     Str.lower_ascii raw = name -> NOTIFY_METHOD H = name) /\
  (env_NOTIFY_METHOD H = None \/ env_NOTIFY_METHOD H = Some "" ->
   NOTIFY_METHOD H = "console") /\
  (~ In (NOTIFY_METHOD H) channel_names ->
   forall newOffers fs, newOffers <> [] ->
     notifyNewOffers H W newOffers fs =
     (Ok tt, fs, [Console Log (Plain (message_of (now W) newOffers))])) /\
  (~ In (NOTIFY_METHOD H) channel_names ->
   forall offers last fs,
     differ offers (JsSet.of_array last) <> [] ->
     trace_of (report H W offers last fs) =
     [Call Differ;
      Console Log (Detected (now W)
                     (map title (differ offers (JsSet.of_array last))));
      Call Notifier;
      Console Log (Plain (message_of (now W)
                            (differ offers (JsSet.of_array last))));
      WriteSeen (add_all (differ offers (JsSet.of_array last))
                         (JsSet.of_array last))]).
Proof.
  assert (Hdefault : ~ In (NOTIFY_METHOD H) channel_names ->
    forall newOffers fs, newOffers <> [] ->
      notifyNewOffers H W newOffers fs =
      (Ok tt, fs, [Console Log (Plain (message_of (now W) newOffers))])).
  { intros Hn newOffers fs Hne. unfold notifyNewOffers.
    destruct newOffers as [|o r]; [contradiction|]. cbn [length Nat.eqb].
    now apply dispatch_default. }
  split; [|split; [|split]].
  - intros raw name Henv Hname Hlow. unfold NOTIFY_METHOD. rewrite Henv.
    assert (Hraw : Str.or_else (or_empty (Some raw)) "console" = raw).
    { destruct raw as [|c r]; [|reflexivity].
      simpl in Hlow. subst name.
      destruct Hname as [E|[E|[E|[]]]]; discriminate E. }
    rewrite Hraw, toLowerCase_ascii; [exact Hlow|].
    rewrite Hlow.
    destruct Hname as [<-|[<-|[<-|[]]]]; reflexivity.
  - intros [E|E]; unfold NOTIFY_METHOD; rewrite E; reflexivity.
  - exact Hdefault.
  - intros Hn offers last fs Hnew. rewrite report_eq. cbv zeta.
    apply length_pos_nonempty in Hnew. rewrite Hnew.
    assert (Et : notify_trace H W (differ offers (JsSet.of_array last)) =
                 [Console Log (Plain (message_of (now W)
                    (differ offers (JsSet.of_array last))))]).
    { unfold notify_trace.
      rewrite (Hdefault Hn _ (mkFiles Absent Absent));
        [reflexivity | now apply length_pos_nonempty]. }
    rewrite Et. destruct (writable W STORAGE_FILE); reflexivity.
Qed.

Lemma method_selection_witness :
  NOTIFY_METHOD Sample.telegram_host = "telegram" /\
  notifyNewOffers Sample.pager_host (Sample.outside 200 true)
    [mkOffer "a" "A" "a"] Sample.files1 =
  (Ok tt, Sample.files1,
   [Console Log (Plain (message_of (now (Sample.outside 200 true))
                                   [mkOffer "a" "A" "a"]))]).
Proof.
  split.
  - apply (proj1 (method_selection Sample.telegram_host
                    (Sample.outside 200 true)) "Telegram" "telegram").
    + reflexivity.
    + simpl. auto.
    + reflexivity.
  - apply (proj1 (proj2 (proj2 (method_selection Sample.pager_host
                                  (Sample.outside 200 true))))).
    + vm_compute. intros [E|[E|[E|[]]]]; discriminate E.
    + discriminate.
Defined.

(** ** The seen-set file at the start of a cycle *)

Lemma load_comes_late {A : Type} (a b c d x : A) (rest pre post : list A) :
  a <> x -> b <> x -> c <> x -> d <> x ->
  a :: b :: c :: d :: x :: rest = (pre ++ x :: post)%list ->
  In c pre /\ In d pre.
Proof.
  intros Ha Hb Hc Hd E.
  assert (Hincl : incl [a; b; c; d] pre).
  { apply (@before_first A x [a; b; c; d] rest pre post); [|exact E].
    simpl. intros [F|[F|[F|[F|[]]]]]; contradiction. }
  split; apply Hincl; simpl; auto.
Qed.

(** C1, as the code has it.  With an unparseable seen-set file and a page
    with one teaser card the cycle runs to its end: it writes the meta file,
    extracts, diffs against the empty set, notifies and writes the seen-set
    file.  So a cycle does not stop idle on such a file. *)
Lemma unparseable_seen_file_counterexample :
  seen_file Sample.files_garbage = Garbage /\
  checkOnce Sample.tokenless_host (Sample.outside 200 true)
            Sample.files_garbage =
  (Ok tt,
   mkFiles (Parsed empty_meta)
           (Parsed (OffersArray ["https://www.stwdo.de/wohnen/angebot/7"])),
   [FsRead META_FILE;
    HttpGet (request_headers empty_meta);
    WriteMeta empty_meta;
    Call Extractor;
    FsRead STORAGE_FILE;
    Console Warn
      (Plain "Warning: Could not read last seen file, starting with empty list.");
    Call Differ;
    Console Log (Detected "2.11.2026, 12:00:00" ["Dortmund: Apartment"]);
    Call Notifier;
    Console Error (Plain
      "Telegram selected but TELEGRAM_BOT_TOKEN or TELEGRAM_CHAT_ID is missing in env.");
    WriteSeen ["https://www.stwdo.de/wohnen/angebot/7"]]) /\
  ~ aborts_on_unparseable_seen_file.
Proof.
  split; [reflexivity|]. split; [reflexivity|].
  intros Habort.
  destruct (Habort Sample.tokenless_host (Sample.outside 200 true)
              Sample.files_garbage eq_refl) as [Hcall _].
  apply (Hcall Extractor). vm_compute. do 3 right. left. reflexivity.
Qed.

(** C1, amended.  When the seen-set file is absent, [loadLastSeen] returns
    the empty list without a warning, and after a response of the 2xx class
    the cycle goes on with the empty seen-set: every extracted offer is new.
    By the time a cycle reads the seen-set file, whatever state the file is
    in, it has already written the meta file and called the extractor. *)
Theorem absent_seen_file_is_empty_set (H : Host) (W : Outside) (fs : Files) :
  (seen_file fs = Absent ->
   loadLastSeen fs = (Ok [], fs, [FsRead STORAGE_FILE])) /\
  (seen_file fs = Absent ->
   forall status e lm data offers,
     axios_get W (request_headers (stored_meta fs)) =
       Response status e lm data ->
     success status = true ->
     writable W META_FILE = true ->
     extractOffersFromHtml H (or_empty data) = Some offers ->
     let fs1 :=
       mkFiles (Parsed (update_meta (stored_meta fs) e lm)) Absent in
     differ offers (JsSet.of_array []) = offers /\
     trace_of (checkOnce H W fs) =
     ([FsRead META_FILE; HttpGet (request_headers (stored_meta fs));
       WriteMeta (update_meta (stored_meta fs) e lm); Call Extractor;
       FsRead STORAGE_FILE] ++
      trace_of (report H W offers [] fs1) ++
      match result_of (report H W offers [] fs1) with
      | Ok _ => []
      | Throw err => [processing_error err]
      end)%list) /\
  (forall pre post,
     trace_of (checkOnce H W fs) = (pre ++ FsRead STORAGE_FILE :: post)%list ->
     (exists m, In (WriteMeta m) pre) /\ In (Call Extractor) pre).
Proof.
  split; [|split].
  - intros Ha. rewrite loadLastSeen_eq. unfold stored_seen, seen_warning.
    now rewrite Ha.
  - intros Ha status e lm data offers Hget Hs Hw Hex fs1.
    destruct (success_valid _ Hs) as [Hv H304].
    split.
    + clear Hex. induction offers as [|o r IH]; [reflexivity|].
      change (differ (o :: r) (JsSet.of_array []))
        with (o :: differ r (JsSet.of_array [])).
      now rewrite IH.
    + rewrite checkOnce_eq. cbv zeta. rewrite Hget, Hv, H304.
      rewrite process_eq. cbv zeta. rewrite Hw, Hex.
      unfold stored_seen, seen_warning. rewrite Ha.
      subst fs1. unfold trace_of, files_of, result_of. simpl.
      reflexivity.
  - intros pre post.
    rewrite checkOnce_run. cbv zeta.
    destruct (axios_get W (request_headers (stored_meta fs)))
      as [|status e lm data].
    + unfold trace_of. simpl. intros E.
      assert (Hin : In (FsRead STORAGE_FILE)
                (pre ++ FsRead STORAGE_FILE :: post)) by apply in_elt.
      rewrite <- E in Hin. sift Hin.
    + repeat match goal with
             | |- context [match extractOffersFromHtml ?H ?s with _ => _ end] =>
                 destruct (extractOffersFromHtml H s) as [?offers|]
             | |- context [if ?b then _ else _] => destruct b eqn:?
             end;
        unfold trace_of; simpl; intros E;
        try (apply load_comes_late in E; try discriminate;
             destruct E as [Hm Hx]; split; [eexists; exact Hm | exact Hx]);
        assert (Hin : In (FsRead STORAGE_FILE)
                  (pre ++ FsRead STORAGE_FILE :: post)) by apply in_elt;
        rewrite <- E in Hin; sift Hin.
Qed.

Lemma absent_seen_file_is_empty_set_witness :
  loadLastSeen Sample.files_none =
    (Ok [], Sample.files_none, [FsRead STORAGE_FILE]) /\
  trace_of (checkOnce Sample.pager_host (Sample.outside 200 true)
                      Sample.files_none) =
    [FsRead META_FILE; HttpGet (request_headers empty_meta);
     WriteMeta empty_meta; Call Extractor; FsRead STORAGE_FILE;
     Call Differ;
     Console Log (Detected "2.11.2026, 12:00:00" ["Dortmund: Apartment"]);
     Call Notifier;
     Console Log (Plain (message_of "2.11.2026, 12:00:00"
       [mkOffer "https://www.stwdo.de/wohnen/angebot/7" "Dortmund: Apartment"
                "https://www.stwdo.de/wohnen/angebot/7"]));
     WriteSeen ["https://www.stwdo.de/wohnen/angebot/7"]] /\
  ((exists m,
      In (WriteMeta m)
         [FsRead META_FILE; HttpGet (request_headers empty_meta);
          WriteMeta empty_meta; Call Extractor]) /\
   In (Call Extractor)
      [FsRead META_FILE; HttpGet (request_headers empty_meta);
       WriteMeta empty_meta; Call Extractor]).
Proof.
  pose proof (absent_seen_file_is_empty_set Sample.pager_host
                (Sample.outside 200 true) Sample.files_none) as [H1 [H2 H3]].
  split; [exact (H1 eq_refl)|]. split.
  - exact (proj2 (H2 eq_refl 200 None None (Some "<html>")
      [mkOffer "https://www.stwdo.de/wohnen/angebot/7" "Dortmund: Apartment"
               "https://www.stwdo.de/wohnen/angebot/7"]
      eq_refl eq_refl eq_refl eq_refl)).
  - exact (H3 [FsRead META_FILE; HttpGet (request_headers empty_meta);
               WriteMeta empty_meta; Call Extractor]
              [Call Differ;
               Console Log (Detected "2.11.2026, 12:00:00"
                              ["Dortmund: Apartment"]);
               Call Notifier;
               Console Log (Plain (message_of "2.11.2026, 12:00:00"
                 [mkOffer "https://www.stwdo.de/wohnen/angebot/7"
                          "Dortmund: Apartment"
                          "https://www.stwdo.de/wohnen/angebot/7"]));
               WriteSeen ["https://www.stwdo.de/wohnen/angebot/7"]]
              eq_refl).
Defined.

(** * Further properties *)

(** ** The extractor: ids, records, candidates *)

Lemma filter_andb {A : Type} (p q : A -> bool) (l : list A) :
  filter p (filter q l) = filter (fun x => q x && p x) l.
Proof.
  induction l as [|a r IH]; simpl; [reflexivity|].
  destruct (q a); simpl; [destruct (p a)|]; now rewrite IH.
Qed.

Lemma firsts_filter (p : string -> bool) (l : list string) :
  firsts (filter p l) = filter p (firsts l).
Proof.
  induction l as [|x r IH]; simpl; [reflexivity|].
  destruct (p x) eqn:Ep; simpl; rewrite IH.
  - f_equal. rewrite !filter_andb. apply filter_ext. intros y.
    apply andb_comm.
  - rewrite filter_andb. apply filter_ext_in. intros y _.
    destruct (String.eqb_spec x y) as [<-|Hne]; simpl; [now rewrite Ep|].
    reflexivity.
Qed.

Lemma JsSet_has_app (y : string) (s t : list string) :
  JsSet.has y (s ++ t) = JsSet.has y s || JsSet.has y t.
Proof. unfold JsSet.has. apply existsb_app. Qed.

Lemma of_array_from (l acc : list string) :
  fold_left (fun s x => JsSet.add x s) l acc =
  (acc ++ filter (fun y => negb (JsSet.has y acc)) (firsts l))%list.
Proof.
  revert acc. induction l as [|x r IH]; intros acc; simpl.
  - now rewrite app_nil_r.
  - rewrite IH. unfold JsSet.add. destruct (JsSet.has x acc) eqn:Ex; simpl.
    + f_equal. rewrite filter_andb. apply filter_ext_in. intros y _.
      destruct (String.eqb_spec x y) as [<-|Hne]; simpl; [now rewrite Ex|].
      reflexivity.
    + rewrite <- app_assoc. simpl. do 2 f_equal.
      rewrite filter_andb. apply filter_ext. intros y.
      rewrite JsSet_has_app, negb_orb. simpl.
      rewrite orb_false_r, (String.eqb_sym y x). apply andb_comm.
Qed.

(** [new Set(l)] lists the members of [l] in the order in which they come
    first. *)
Lemma of_array_firsts (l : list string) :
  JsSet.of_array l = firsts l.
Proof.
  unfold JsSet.of_array. rewrite of_array_from. simpl.
  induction (firsts l) as [|y r IH]; simpl; [reflexivity | now rewrite IH].
Qed.

(** X1.  The ids one extraction returns are pairwise distinct, and they are
    the ids of the candidates in the order in which each comes first: of the
    teaser cards with a link when there is one, of the accepted anchors
    otherwise. *)
Theorem extraction_ids_distinct_in_order (H : Host) (doc : Document)
  (out : list Offer) :
  extractOffers H doc = Some out ->
  NoDup (map id out) /\
  exists ids,
    map id out = firsts ids /\
    ((ids <> [] /\
      ids_of H (fun el => or_empty (data_href el))
             (filter has_href (teaserList doc)) ids) \/
     (filter has_href (teaserList doc) = [] /\
      ids_of H (fun el => or_empty (href el))
             (filter accepted (fallback_anchors doc)) ids)).
Proof.
  intros E. split; [exact (extractOffers_ids_NoDup _ _ E)|].
  unfold extractOffers in E.
  destruct (structural H doc) as [m|] eqn:Es; [|discriminate].
  destruct (structural_keys_from _ _ _ Es) as [cards [Hcards Hk]].
  change (JsMap.keys m = JsSet.of_array cards) in Hk.
  destruct (structural_sound _ _ Es) as [Hkeyed _].
  destruct (JsMap.size m =? 0) eqn:Ez.
  - apply Nat.eqb_eq in Ez. destruct m; [|discriminate].
    destruct (fallback H doc) as [m'|] eqn:Ef; [|discriminate].
    injection E as <-.
    destruct (fallback_keys_from _ _ _ Ef) as [ids [Hids Hk']].
    change (JsMap.keys m' = JsSet.of_array ids) in Hk'.
    destruct (fallback_sound _ _ Ef) as [Hkeyed' _].
    exists ids. rewrite (keyed_ids Hkeyed'), Hk', of_array_firsts.
    split; [reflexivity|]. right. split; [|exact Hids].
    destruct cards as [|c cs]; [now inversion Hcards|].
    exfalso.
    assert (Hin : In c (JsMap.keys [])).
    { rewrite Hk. apply JsSet_of_array_In. now left. }
    destruct Hin.
  - injection E as <-. exists cards.
    rewrite (keyed_ids Hkeyed), Hk, of_array_firsts.
    split; [reflexivity|]. left. split; [|exact Hcards].
    intros ->. apply Nat.eqb_neq in Ez. apply Ez.
    unfold JsMap.size. unfold JsMap.keys in Hk.
    now rewrite <- (length_map fst), Hk.
Qed.

Lemma extraction_ids_distinct_in_order_witness :
  NoDup (map id
    [mkOffer "https://www.stwdo.de/wohnen/angebot/1" "Drei"
             "https://www.stwdo.de/wohnen/angebot/1";
     mkOffer "https://www.stwdo.de/wohnen/angebot/2" "Zwei"
             "https://www.stwdo.de/wohnen/angebot/2"]) /\
  exists ids,
    map id
      [mkOffer "https://www.stwdo.de/wohnen/angebot/1" "Drei"
               "https://www.stwdo.de/wohnen/angebot/1";
       mkOffer "https://www.stwdo.de/wohnen/angebot/2" "Zwei"
               "https://www.stwdo.de/wohnen/angebot/2"] = firsts ids /\
    ((ids <> [] /\
      ids_of (Sample.host Sample.three_cards None None None None)
             (fun el => or_empty (data_href el))
             (filter has_href (teaserList Sample.three_cards)) ids) \/
     (filter has_href (teaserList Sample.three_cards) = [] /\
      ids_of (Sample.host Sample.three_cards None None None None)
             (fun el => or_empty (href el))
             (filter accepted (fallback_anchors Sample.three_cards)) ids)).
Proof.
  exact (@extraction_ids_distinct_in_order
    (Sample.host Sample.three_cards None None None None) Sample.three_cards
    _ eq_refl).
Defined.

Lemma Forall_values_set (P : Offer -> Prop) (k : string) (v : Offer)
  (m : OffersMap) :
  P v -> Forall P (JsMap.values m) -> Forall P (JsMap.values (JsMap.set k v m)).
Proof.
  intros Hv. induction m as [|[k' v'] r IH]; simpl; intros Hm.
  - constructor; [exact Hv | constructor].
  - inversion Hm as [|? ? Hv' Hr]; subst.
    destruct (String.eqb k' k); simpl; constructor; auto.
Qed.

Lemma absolute_nonempty (H : Host) (ref abs : string) :
  resolves_to_urls H -> absolute H ref = Some abs -> abs <> "".
Proof.
  intros Hres. unfold absolute.
  destruct (Str.startsWith "http" ref) eqn:E.
  - intros Ea. injection Ea as <-. intros ->. discriminate E.
  - apply Hres.
Qed.

Lemma or_else_nonempty (a b : string) : b <> "" -> Str.or_else a b <> "".
Proof.
  intros Hb. unfold Str.or_else. destruct a; simpl; [exact Hb | discriminate].
Qed.

Lemma built_well_formed (H : Host) (ref abs label : string) :
  resolves_to_urls H -> absolute H ref = Some abs ->
  well_formed (mkOffer abs (Str.or_else label abs) abs).
Proof.
  intros Hres Ea. pose proof (absolute_nonempty _ Hres Ea) as Hne.
  repeat split; simpl; [exact Hne | now apply or_else_nonempty].
Qed.

(** X2.  Every record the extractor returns has its url equal to its id, a
    non-empty id and a non-empty title, the title falling back to the id
    when the page gives no text; this for a resolver that, as [URL] does,
    never serialises to the empty string. *)
Theorem extracted_offers_well_formed (H : Host) (doc : Document)
  (out : list Offer) :
  resolves_to_urls H ->
  extractOffers H doc = Some out ->
  Forall well_formed out.
Proof.
  intros Hres. unfold extractOffers.
  assert (Hs : forall m, structural H doc = Some m ->
                         Forall well_formed (JsMap.values m)).
  { intros m.
    apply (each_invariant (fun m => Forall well_formed (JsMap.values m))
             (teaser_callback H)); [|constructor].
    intros s a s' Hgood. unfold teaser_callback.
    destruct (negb (Str.truthy (or_empty (data_href a))));
      [intros E; now injection E as <-|].
    destruct (absolute H (or_empty (data_href a))) as [abs|] eqn:Ea;
      [|discriminate].
    intros E. injection E as <-.
    apply Forall_values_set; [|exact Hgood]. eapply built_well_formed; eassumption. }
  assert (Hf : forall m, fallback H doc = Some m ->
                         Forall well_formed (JsMap.values m)).
  { intros m.
    apply (each_invariant (fun m => Forall well_formed (JsMap.values m))
             (anchor_callback H)); [|constructor].
    intros s a s' Hgood. rewrite anchor_callback_eq.
    destruct (accepted a); [|intros E; now injection E as <-].
    destruct (absolute H (or_empty (href a))) as [abs|] eqn:Ea; [|discriminate].
    destruct (JsMap.has abs s); intros E; injection E as <-; [exact Hgood|].
    apply Forall_values_set; [|exact Hgood]. eapply built_well_formed; eassumption. }
  destruct (structural H doc) as [m|]; [|discriminate].
  destruct (JsMap.size m =? 0).
  - destruct (fallback H doc) as [m'|]; [|discriminate].
    simpl. intros E. injection E as <-. now apply Hf.
  - intros E. injection E as <-. now apply Hs.
Qed.

Lemma sample_resolves_to_urls (doc : Document) (a b c d : option string) :
  resolves_to_urls (Sample.host doc a b c d).
Proof.
  intros ref u. simpl. unfold Sample.resolve.
  destruct (Str.startsWith "/" ref && negb (Str.startsWith "//" ref) &&
            Sample.all_plain ref); [|discriminate].
  intros E. injection E as <-. discriminate.
Qed.

Lemma extracted_offers_well_formed_witness :
  Forall well_formed
    [mkOffer "https://www.stwdo.de/wohnen/angebot/123" "Zimmer frei"
             "https://www.stwdo.de/wohnen/angebot/123"].
Proof.
  exact (@extracted_offers_well_formed
    (Sample.host Sample.scenario_F None None None None) Sample.scenario_F _
    (sample_resolves_to_urls _ _ _ _ _) eq_refl).
Defined.

(** ** The extractor: what it looks at *)

Lemma each_filter {A S : Type} (f : S -> A -> option S) (keep : A -> bool)
  (l : list A) (s : S) :
  (forall s a, keep a = false -> f s a = Some s) ->
  each f (filter keep l) s = each f l s.
Proof.
  intros Hskip. revert s. induction l as [|a r IH]; intros s; simpl;
    [reflexivity|].
  destruct (keep a) eqn:E; simpl.
  - destruct (f s a); [apply IH | reflexivity].
  - rewrite (Hskip s a E). apply IH.
Qed.

(** X3.  The result depends on the page only through the teaser cards that
    carry a link and the visited anchors that pass the test: a card without
    [data-href], and an anchor that is external or matches no keyword, are
    passed over without a trace, and their links are never resolved. *)
Theorem only_candidates_matter (H : Host) (doc : Document) :
  extractOffers H (candidates_only doc) = extractOffers H doc.
Proof.
  unfold extractOffers, structural, fallback.
  change (teaserList (candidates_only doc))
    with (filter has_href (teaserList doc)).
  change (fallback_anchors (candidates_only doc))
    with (filter accepted (fallback_anchors doc)).
  rewrite (each_filter (teaser_callback H) has_href).
  - rewrite (each_filter (anchor_callback H) accepted); [reflexivity|].
    intros s a Ea. now rewrite anchor_callback_eq, Ea.
  - intros s a Ea. unfold teaser_callback. unfold has_href in Ea.
    now rewrite Ea.
Qed.

Lemma scan_first (doc : Document) (sels : list string)
  (anchors : option (list Anchor)) :
  anchors = None \/ anchors = Some [] ->
  match find (fun sel => (0 <? count doc sel) &&
                         (0 <? length (find_anchors doc sel))) sels with
  | Some sel =>
      scan doc sels anchors = Some (find_anchors doc sel) /\
      find_anchors doc sel <> []
  | None => scan doc sels anchors = None \/ scan doc sels anchors = Some []
  end.
Proof.
  revert anchors. induction sels as [|sel rest IH]; intros anchors Ha; simpl.
  - exact Ha.
  - destruct (0 <? count doc sel); simpl.
    + destruct (find_anchors doc sel) as [|a r] eqn:Ef; simpl.
      * apply IH. now right.
      * rewrite ?Ef. split; [reflexivity | discriminate].
    + now apply IH.
Qed.

(** X4.  The fallback pass visits the anchors of one place only: of the
    first of [main], [#content], [.container] and [.content] that is on the
    page and holds an anchor, and of the whole page when there is none.  An
    anchor outside that container is not looked at. *)
Theorem fallback_visits_first_container (doc : Document) :
  fallback_anchors doc =
  match first_container doc with
  | Some sel => find_anchors doc sel
  | None => all_anchors doc
  end /\
  (forall sel, first_container doc = Some sel ->
     In sel containers /\ 0 < count doc sel /\ find_anchors doc sel <> []).
Proof.
  split.
  - unfold fallback_anchors, first_container.
    pose proof (scan_first doc containers (or_introl eq_refl)) as Hs.
    destruct (find _ containers) as [sel|].
    + destruct Hs as [-> Hne].
      destruct (find_anchors doc sel); [contradiction | reflexivity].
    + destruct Hs as [->| ->]; reflexivity.
  - intros sel Hf. unfold first_container in Hf.
    apply find_some in Hf. destruct Hf as [Hin Hp].
    apply andb_true_iff in Hp. destruct Hp as [Hc Hl].
    apply Nat.ltb_lt in Hc. split; [exact Hin|]. split; [exact Hc|].
    intros E. rewrite E in Hl. discriminate.
Qed.

Lemma fallback_visits_first_container_witness :
  In "#content" containers /\
  0 < count (mkDocument []
               (fun sel => if String.eqb sel "#content" then 1 else 0)
               (fun _ => [zimmer_frei]) []) "#content" /\
  find_anchors (mkDocument []
               (fun sel => if String.eqb sel "#content" then 1 else 0)
               (fun _ => [zimmer_frei]) []) "#content" <> [].
Proof.
  exact (proj2 (fallback_visits_first_container
    (mkDocument [] (fun sel => if String.eqb sel "#content" then 1 else 0)
                (fun _ => [zimmer_frei]) [])) "#content" eq_refl).
Defined.

(** ** The extractor: the title of an anchor met twice *)

Lemma lookup_set_same (k : string) (v : Offer) (m : OffersMap) :
  lookup k (JsMap.set k v m) = Some v.
Proof.
  induction m as [|[k' v'] r IH]; simpl.
  - now rewrite String.eqb_refl.
  - destruct (String.eqb k' k) eqn:E; simpl; now rewrite E.
Qed.

Lemma lookup_set_other (k k' : string) (v : Offer) (m : OffersMap) :
  k' <> k -> lookup k (JsMap.set k' v m) = lookup k m.
Proof.
  intros Hne. induction m as [|[k0 v0] r IH]; simpl.
  - destruct (String.eqb_spec k' k); [contradiction | reflexivity].
  - destruct (String.eqb_spec k0 k') as [->|Hk]; simpl.
    + destruct (String.eqb_spec k' k); [contradiction | reflexivity].
    + now rewrite IH.
Qed.

Lemma lookup_has (k : string) (v : Offer) (m : OffersMap) :
  lookup k m = Some v -> JsMap.has k m = true.
Proof.
  induction m as [|[k' v'] r IH]; simpl; [discriminate|].
  destruct (String.eqb k' k); [reflexivity | exact IH].
Qed.

(** Once an id is filed, the fallback pass leaves its record alone. *)
Lemma fallback_keeps_record (H : Host) (l : list Anchor) (m m' : OffersMap)
  (k : string) (v : Offer) :
  lookup k m = Some v ->
  each (anchor_callback H) l m = Some m' ->
  lookup k m' = Some v.
Proof.
  revert m. induction l as [|a r IH]; intros m Hk; simpl.
  - intros E. now injection E as <-.
  - rewrite anchor_callback_eq. destruct (accepted a); [|now apply IH].
    destruct (absolute H (or_empty (href a))) as [abs|]; [|discriminate].
    destruct (JsMap.has abs m) eqn:Hh; [now apply IH|].
    apply IH. rewrite lookup_set_other; [exact Hk|].
    intros ->. apply lookup_has in Hk. congruence.
Qed.

(** X5.  In the fallback pass the first anchor of an id decides its record:
    when an accepted anchor resolves to an id that no accepted anchor before
    it resolves to, the record filed under that id at the end carries the
    trimmed text of this anchor as its title, or the id when the text is
    empty, whatever anchors of the same id come later. *)
Theorem fallback_first_anchor_wins (H : Host) (doc : Document)
  (m : OffersMap) (pre post : list Anchor) (el : Anchor) (k : string) :
  fallback H doc = Some m ->
  fallback_anchors doc = (pre ++ el :: post)%list ->
  accepted el = true ->
  absolute H (or_empty (href el)) = Some k ->
  (forall e, In e pre -> accepted e = true ->
             absolute H (or_empty (href e)) <> Some k) ->
  lookup k m = Some (mkOffer k (Str.or_else (Str.trim (text el)) k) k).
Proof.
  intros Ef Ha Hacc Hk Hfirst. unfold fallback in Ef.
  rewrite Ha, each_app in Ef.
  destruct (each (anchor_callback H) pre []) as [m1|] eqn:E1; [|discriminate].
  simpl in Ef. rewrite anchor_callback_eq, Hacc, Hk in Ef.
  assert (Hnew : JsMap.has k m1 = false).
  { destruct (JsMap.has k m1) eqn:Hh; [|reflexivity]. exfalso.
    apply JsMap_has_keys in Hh. apply (fallback_keys _ _ _ E1) in Hh.
    destruct Hh as [[]|[e [Hin [He Hr]]]]. exact (Hfirst e Hin He Hr). }
  rewrite Hnew in Ef.
  eapply fallback_keeps_record; [apply lookup_set_same | exact Ef].
Qed.

Lemma fallback_first_anchor_wins_witness :
  lookup Sample.offer1
    [(Sample.offer1, mkOffer Sample.offer1 "Erstes Zimmer" Sample.offer1)] =
  Some (mkOffer Sample.offer1
          (Str.or_else (Str.trim "Erstes Zimmer") Sample.offer1)
          Sample.offer1).
Proof.
  refine (@fallback_first_anchor_wins
    (Sample.host Sample.twice_anchors None None None None)
    Sample.twice_anchors _ []
    [mkAnchor (Some Sample.offer1) "Zweites Zimmer"]
    (mkAnchor (Some Sample.offer1) "Erstes Zimmer") Sample.offer1
    eq_refl eq_refl eq_refl eq_refl _).
  intros e [].
Defined.

(** ** Substrings *)

Lemma prefix_refl (s : string) : String.prefix s s = true.
Proof.
  induction s as [|c r IH]; simpl; [reflexivity|].
  destruct (ascii_dec c c); [exact IH | contradiction].
Qed.

Lemma prefix_app (p a b : string) :
  String.prefix p a = true -> String.prefix p (a ++ b) = true.
Proof.
  revert a. induction p as [|x p' IH]; intros a;
    [intros _; destruct (a ++ b); reflexivity|].
  destruct a as [|y a']; simpl; [discriminate|].
  destruct (ascii_dec x y); [apply IH | discriminate].
Qed.

Lemma includes_app_l (p a b : string) :
  Str.includes p a = true -> Str.includes p (a ++ b) = true.
Proof.
  induction a as [|c a' IH]; simpl.
  - rewrite orb_false_r. unfold Str.startsWith. intros Hp.
    destruct p; [|discriminate]. destruct b; reflexivity.
  - intros Hp. apply orb_true_iff in Hp. apply orb_true_iff.
    destruct Hp as [Hp|Hp].
    + left. exact (prefix_app _ (String c a') b Hp).
    + right. now apply IH.
Qed.

Lemma includes_app_r (p a b : string) :
  Str.includes p b = true -> Str.includes p (a ++ b) = true.
Proof.
  intros Hp. induction a as [|c a' IH]; simpl; [exact Hp|].
  rewrite IH. apply orb_true_r.
Qed.

Lemma includes_refl (s : string) : Str.includes s s = true.
Proof.
  destruct s; simpl; [reflexivity|].
  apply orb_true_iff. left.
  exact (prefix_refl (String a s)).
Qed.

Lemma lower_ascii_app (a b : string) :
  Str.lower_ascii (a ++ b) = Str.lower_ascii a ++ Str.lower_ascii b.
Proof.
  induction a as [|c a' IH]; simpl; [reflexivity | now rewrite IH].
Qed.

Lemma hasKeywords_app (a b : string) :
  hasKeywords a = true \/ hasKeywords b = true -> hasKeywords (a ++ b) = true.
Proof.
  unfold hasKeywords. cbv zeta. rewrite lower_ascii_app.
  intros [Hk|Hk];
    repeat (apply orb_true_iff in Hk; destruct Hk as [Hk|Hk]);
    repeat rewrite orb_true_iff;
    first [ do 4 left; (now apply includes_app_l) || (now apply includes_app_r)
          | do 3 left; right; (now apply includes_app_l) || (now apply includes_app_r)
          | do 2 left; right; (now apply includes_app_l) || (now apply includes_app_r)
          | left; right; (now apply includes_app_l) || (now apply includes_app_r)
          | right; (now apply includes_app_l) || (now apply includes_app_r) ].
Qed.

(** X6.  An anchor with an internal href is accepted as soon as a keyword
    shows, in any mix of upper and lower case, in its href alone or in its
    trimmed text alone; the other of the two can then be anything. *)
Theorem keyword_in_either_part_suffices (h t : string) :
  isInternal h = true ->
  hasKeywords (Str.trim t) = true \/ hasKeywords h = true ->
  accepted (mkAnchor (Some h) t) = true.
Proof.
  intros Hi Hk. unfold accepted. simpl. rewrite Hi. simpl.
  now apply hasKeywords_app.
Qed.

Lemma keyword_in_either_part_suffices_witness :
  accepted (mkAnchor (Some "/WOHNEN/123") "  mehr  ") = true.
Proof.
  apply keyword_in_either_part_suffices.
  - reflexivity.
  - right. reflexivity.
Defined.

(** ** The message *)

Lemma includes_join (p sep : string) (l : list string) (x : string) :
  In x l -> Str.includes p x = true -> Str.includes p (Str.join sep l) = true.
Proof.
  intros Hin Hp. induction l as [|y r IH]; [destruct Hin|].
  destruct r as [|z r'].
  - destruct Hin as [->|[]]. exact Hp.
  - change (Str.join sep (y :: z :: r'))
      with (y ++ sep ++ Str.join sep (z :: r')).
    destruct Hin as [->|Hin].
    + now apply includes_app_l.
    + apply includes_app_r, includes_app_r. now apply IH.
Qed.

(** X7.  The message names every new offer: the title and the url of each
    offer handed to the notifier occur in the text that is sent or
    printed. *)
Theorem message_names_every_offer (ts : string) (newOffers : list Offer)
  (o : Offer) :
  In o newOffers ->
  Str.includes (title o) (message_of ts newOffers) = true /\
  Str.includes (url o) (message_of ts newOffers) = true.
Proof.
  intros Hin. unfold message_of.
  assert (Hline : In (offer_line o) (map offer_line newOffers))
    by now apply in_map.
  split; do 4 apply includes_app_r;
    apply (includes_join _ _ _ _ Hline); unfold offer_line.
  - apply includes_app_r, includes_app_r, includes_app_l, includes_refl.
  - do 6 apply includes_app_r. apply includes_refl.
Qed.

Lemma message_names_every_offer_witness :
  Str.includes "Dortmund: Apartment"
    (message_of "2.11.2026, 12:00:00"
       [mkOffer "a" "A" "a";
        mkOffer "https://www.stwdo.de/wohnen/angebot/7" "Dortmund: Apartment"
                "https://www.stwdo.de/wohnen/angebot/7"]) = true.
Proof.
  refine (proj1 (@message_names_every_offer "2.11.2026, 12:00:00"
    [mkOffer "a" "A" "a";
     mkOffer "https://www.stwdo.de/wohnen/angebot/7" "Dortmund: Apartment"
             "https://www.stwdo.de/wohnen/angebot/7"]
    (mkOffer "https://www.stwdo.de/wohnen/angebot/7" "Dortmund: Apartment"
             "https://www.stwdo.de/wohnen/angebot/7") _)).
  simpl. right. left. reflexivity.
Defined.

(** ** The notifier: where it posts *)

Ltac no_post_here :=
  simpl; split; [lia | intros url body Hin; sift Hin].

(** X8.  The notifier posts at most once, and only where a channel is set
    up: to the bot address of telegram when that method is selected and both
    the token and the chat id are set, or to the webhook address when that
    method is selected and the address is set.  The body then carries the
    message of all new offers.  Under every other method, and with a missing
    credential, nothing is sent anywhere. *)
Theorem posts_only_where_configured (H : Host) (W : Outside)
  (newOffers : list Offer) :
  length (filter is_post (notify_trace H W newOffers)) <= 1 /\
  forall url body,
    In (HttpPost url body) (notify_trace H W newOffers) ->
    newOffers <> [] /\
    ((NOTIFY_METHOD H = "telegram" /\
      truthy_opt (TELEGRAM_BOT_TOKEN H) = true /\
      truthy_opt (TELEGRAM_CHAT_ID H) = true /\
      url = telegram_url H /\
      body = TelegramBody (or_empty (TELEGRAM_CHAT_ID H))
                          (message_of (now W) newOffers)) \/
     (NOTIFY_METHOD H = "webhook" /\
      truthy_opt (WEBHOOK_URL H) = true /\
      url = or_empty (WEBHOOK_URL H) /\
      body = WebhookBody (message_of (now W) newOffers))).
Proof.
  unfold notify_trace, trace_of, notifyNewOffers.
  destruct newOffers as [|o r]; [no_post_here|].
  cbn [length Nat.eqb].
  set (msg := message_of (now W) (o :: r)). unfold dispatch.
  destruct (String.eqb_spec (NOTIFY_METHOD H) "telegram") as [Et|Et].
  - unfold telegram.
    destruct (truthy_opt (TELEGRAM_BOT_TOKEN H)) eqn:Tk;
      [destruct (truthy_opt (TELEGRAM_CHAT_ID H)) eqn:Tc|];
      cbn [negb orb]; try no_post_here.
    unfold try_catch, bind, post, emit, ret, throw.
    destruct (axios_post W _ _); simpl; (split; [lia|]);
      intros url body Hin; sift Hin; injection Hin as <- <-;
      (split; [discriminate|]); left; repeat split; assumption.
  - destruct (String.eqb_spec (NOTIFY_METHOD H) "webhook") as [Ew|Ew].
    + unfold webhook.
      destruct (truthy_opt (WEBHOOK_URL H)) eqn:Tu; cbn [negb];
        try no_post_here.
      unfold try_catch, bind, post, emit, ret, throw.
      destruct (axios_post W _ _); simpl; (split; [lia|]);
        intros url body Hin; sift Hin; injection Hin as <- <-;
        (split; [discriminate|]); right; repeat split; assumption.
    + destruct (String.eqb (NOTIFY_METHOD H) "email"); no_post_here.
Qed.

Lemma posts_only_where_configured_witness :
  NOTIFY_METHOD Sample.telegram_host = "telegram" \/
  NOTIFY_METHOD Sample.telegram_host = "webhook".
Proof.
  destruct (proj2 (posts_only_where_configured Sample.telegram_host
                     (Sample.outside 200 true) [mkOffer "a" "A" "a"])
              (telegram_url Sample.telegram_host)
              (TelegramBody "c" (message_of "2.11.2026, 12:00:00"
                                   [mkOffer "a" "A" "a"]))
              (or_introl eq_refl)) as [_ [[E _]|[E _]]].
  - left. exact E.
  - right. exact E.
Defined.

(** ** The cycle: how it ends *)

Lemma checkOnce_returns (H : Host) (W : Outside) (fs : Files) :
  result_of (checkOnce H W fs) = Ok tt.
Proof. cases_of_run; reflexivity. Qed.

Lemma notify_trace_filter (H : Host) (W : Outside) (newOffers : list Offer)
  (f : Event -> bool) :
  (forall e, notifier_event e -> f e = false) ->
  filter f (notify_trace H W newOffers) = [].
Proof.
  intros Hf. pose proof (notify_trace_events H W newOffers) as Hall.
  induction Hall as [|e r He Hr IH]; simpl; [reflexivity|].
  now rewrite (Hf e He).
Qed.

Lemma seen_warning_filter (fs : Files) (f : Event -> bool) :
  (forall e, notifier_event e -> f e = false) ->
  filter f (seen_warning fs) = [].
Proof.
  intros Hf. unfold seen_warning.
  destruct (seen_file fs); simpl; try reflexivity.
  now rewrite Hf.
Qed.

Ltac count_events :=
  unfold trace_of, processing_error; simpl;
  repeat (rewrite filter_app; simpl);
  rewrite ?notify_trace_filter, ?seen_warning_filter
    by (intros [] He; simpl in He; try reflexivity; contradiction);
  simpl.

(** ** The cycle after a good response *)

(** The run of a cycle whose request, meta write and extraction succeed. *)
Lemma checkOnce_on_success (H : Host) (W : Outside) (fs : Files)
  (status : nat) (e lm data : option string) (offers : list Offer) :
  axios_get W (request_headers (stored_meta fs)) = Response status e lm data ->
  success status = true ->
  writable W META_FILE = true ->
  extractOffersFromHtml H (or_empty data) = Some offers ->
  checkOnce H W fs =
  let m' := update_meta (stored_meta fs) e lm in
  let fs1 := mkFiles (Parsed m') (seen_file fs) in
  let S := JsSet.of_array (stored_seen fs) in
  let newOffers := differ offers S in
  let loaded :=
    ([FsRead META_FILE; HttpGet (request_headers (stored_meta fs));
      WriteMeta m'; Call Extractor; FsRead STORAGE_FILE] ++
     seen_warning fs)%list in
  if 0 <? length newOffers then
    let t :=
      (loaded ++
       [Call Differ; Console Log (Detected (now W) (map title newOffers));
        Call Notifier] ++
       notify_trace H W newOffers ++
       [WriteSeen (add_all newOffers S)])%list in
    if writable W STORAGE_FILE then
      (Ok tt,
       mkFiles (Parsed m') (Parsed (OffersArray (add_all newOffers S))), t)
    else
      (Ok tt, fs1, (t ++ [processing_error (WriteFailed STORAGE_FILE)])%list)
  else
    (Ok tt, fs1,
     (loaded ++
      [Call Differ; Console Log (NoNewOffers (now W) (length offers))])%list).
Proof.
  intros Hget Hs Hw Hex. destruct (success_valid _ Hs) as [Hv H304].
  rewrite checkOnce_run. cbv zeta. rewrite Hget, Hv, H304, Hw, Hex.
  reflexivity.
Qed.

Lemma differ_nil (offers : list Offer) (S : list string) :
  (forall o, In o offers -> In (id o) S) -> differ offers S = [].
Proof.
  intros Hall. induction offers as [|o r IH]; [reflexivity|].
  unfold differ in *. simpl.
  assert (Ho : JsSet.has (id o) S = true)
    by (apply JsSet_has_In, Hall; now left).
  rewrite Ho. simpl. apply IH. intros x Hx. apply Hall. now right.
Qed.

Lemma differ_nil_all_seen (offers : list Offer) (S : list string) :
  differ offers S = [] -> forall o, In o offers -> In (id o) S.
Proof.
  intros Hd o Ho. destruct (JsSet.has (id o) S) eqn:E;
    [now apply JsSet_has_In|].
  exfalso. assert (Hin : In o (differ offers S)).
  { unfold differ. apply filter_In. split; [exact Ho | now rewrite E]. }
  rewrite Hd in Hin. destruct Hin.
Qed.

(** After a cycle whose request, extraction and writes succeed, the id of
    every extracted offer is stored. *)
Lemma cycle_records_extracted (H : Host) (W : Outside) (fs : Files)
  (status : nat) (e lm data : option string) (offers : list Offer) :
  axios_get W (request_headers (stored_meta fs)) = Response status e lm data ->
  success status = true ->
  writable W META_FILE = true ->
  writable W STORAGE_FILE = true ->
  extractOffersFromHtml H (or_empty data) = Some offers ->
  forall o, In o offers ->
    In (id o) (stored_seen (files_of (checkOnce H W fs))).
Proof.
  intros Hget Hs Hw Hws Hex o Ho.
  rewrite (@checkOnce_on_success _ _ _ _ _ _ _ _ Hget Hs Hw Hex). cbv zeta. rewrite Hws.
  destruct (0 <? length (differ offers (JsSet.of_array (stored_seen fs))))
    eqn:En; unfold files_of; simpl.
  - apply add_all_In.
    destruct (JsSet.has (id o) (JsSet.of_array (stored_seen fs))) eqn:Eh.
    + left. now apply JsSet_has_In.
    + right. apply in_map. unfold differ. apply filter_In.
      split; [exact Ho | now rewrite Eh].
  - assert (Hd : differ offers (JsSet.of_array (stored_seen fs)) = []).
    { destruct (differ offers (JsSet.of_array (stored_seen fs)));
        [reflexivity | discriminate]. }
    apply JsSet_of_array_In. exact (@differ_nil_all_seen _ _ Hd o Ho).
Qed.

Lemma meta_file_on_success (H : Host) (W : Outside) (fs : Files)
  (status : nat) (e lm data : option string) :
  axios_get W (request_headers (stored_meta fs)) = Response status e lm data ->
  success status = true ->
  writable W META_FILE = true ->
  stored_meta (files_of (checkOnce H W fs)) =
  update_meta (stored_meta fs) e lm.
Proof.
  intros Hget Hs Hw. destruct (success_valid _ Hs) as [Hv H304].
  rewrite checkOnce_run. cbv zeta. rewrite Hget, Hv, H304, Hw.
  destruct (extractOffersFromHtml H (or_empty data)) as [offers|];
    [|reflexivity].
  destruct (0 <? length (differ offers (JsSet.of_array (stored_seen fs))));
    [destruct (writable W STORAGE_FILE)|]; reflexivity.
Qed.

(** X12.  The validators a response brings are the ones the next request
    carries: after a cycle with a response of the 2xx class and a meta write
    that succeeds, the following cycle, whatever it meets, sends the etag of
    that response as [If-None-Match] and its date as [If-Modified-Since]. *)
Theorem validators_are_replayed (H : Host) (W W' : Outside) (fs : Files)
  (status : nat) (e lm data : option string) :
  axios_get W (request_headers (stored_meta fs)) = Response status e lm data ->
  success status = true ->
  writable W META_FILE = true ->
  exists h rest,
    trace_of (checkOnce H W' (files_of (checkOnce H W fs))) =
      FsRead META_FILE :: HttpGet h :: rest /\
    (forall v, e = Some v -> v <> "" -> if_none_match h = Some v) /\
    (forall v, lm = Some v -> v <> "" -> if_modified_since h = Some v).
Proof.
  intros Hget Hs Hw.
  exists (request_headers (stored_meta (files_of (checkOnce H W fs)))).
  rewrite (@meta_file_on_success H _ _ _ _ _ _ Hget Hs Hw).
  assert (Hshape : exists rest,
    trace_of (checkOnce H W' (files_of (checkOnce H W fs))) =
    FsRead META_FILE
      :: HttpGet (request_headers
                    (stored_meta (files_of (checkOnce H W fs)))) :: rest).
  { generalize (files_of (checkOnce H W fs)). intros fs'.
    cases_of_run; eexists; reflexivity. }
  destruct Hshape as [rest Hrest].
  rewrite (@meta_file_on_success H _ _ _ _ _ _ Hget Hs Hw) in Hrest.
  exists rest. split; [exact Hrest|].
  unfold request_headers, update_meta, truthy_opt. simpl.
  split; intros v -> Hne; (destruct v; [contradiction | reflexivity]).
Qed.

Lemma validators_are_replayed_witness :
  exists h rest,
    trace_of (checkOnce Sample.telegram_host (Sample.outside 304 true)
      (files_of (checkOnce Sample.telegram_host
                   (Sample.outside_etag (Some "v2")) Sample.files_none))) =
      FsRead META_FILE :: HttpGet h :: rest /\
    (forall v, Some "v2" = Some v -> v <> "" -> if_none_match h = Some v) /\
    (forall v, @None string = Some v -> v <> "" ->
               if_modified_since h = Some v).
Proof.
  exact (@validators_are_replayed Sample.telegram_host
    (Sample.outside_etag (Some "v2")) (Sample.outside 304 true)
    Sample.files_none 200 (Some "v2") None (Some "<html>")
    eq_refl eq_refl eq_refl).
Defined.

(** X13.  After a cycle whose request, extraction and two writes succeed,
    the seen-set file holds the id of every offer of the page, be it new in
    this cycle or seen before. *)
Theorem every_extracted_id_is_stored (H : Host) (W : Outside) (fs : Files)
  (status : nat) (e lm data : option string) (offers : list Offer) :
  axios_get W (request_headers (stored_meta fs)) = Response status e lm data ->
  success status = true ->
  writable W META_FILE = true ->
  writable W STORAGE_FILE = true ->
  extractOffersFromHtml H (or_empty data) = Some offers ->
  incl (map id offers) (stored_seen (files_of (checkOnce H W fs))) /\
  differ offers
    (JsSet.of_array (stored_seen (files_of (checkOnce H W fs)))) = [].
Proof.
  intros Hget Hs Hw Hws Hex.
  pose proof (@cycle_records_extracted _ _ _ _ _ _ _ _ Hget Hs Hw Hws Hex) as Hall.
  split.
  - intros k Hk. apply in_map_iff in Hk. destruct Hk as [o [<- Ho]].
    now apply Hall.
  - apply differ_nil. intros o Ho. apply JsSet_of_array_In. now apply Hall.
Qed.

Lemma every_extracted_id_is_stored_witness :
  incl (map id
    [mkOffer "https://www.stwdo.de/wohnen/angebot/7" "Dortmund: Apartment"
             "https://www.stwdo.de/wohnen/angebot/7"])
    (stored_seen (files_of (checkOnce Sample.pager_host
                              (Sample.outside 200 true) Sample.files1))).
Proof.
  exact (proj1 (@every_extracted_id_is_stored Sample.pager_host
    (Sample.outside 200 true) Sample.files1 200 None None (Some "<html>") _
    eq_refl eq_refl eq_refl eq_refl eq_refl)).
Defined.

(** X14.  A page that has not changed is not reported twice: when a cycle's
    request, extraction and writes succeed, a following cycle that extracts
    the same offers finds none of them new.  It logs the count, calls
    neither the notifier nor any channel, and does not write the seen-set
    file. *)
Theorem unchanged_page_is_not_reported_again (H : Host) (W W' : Outside)
  (fs : Files) (status status' : nat) (e lm data e' lm' data' : option string)
  (offers : list Offer) :
  axios_get W (request_headers (stored_meta fs)) = Response status e lm data ->
  success status = true ->
  writable W META_FILE = true ->
  writable W STORAGE_FILE = true ->
  extractOffersFromHtml H (or_empty data) = Some offers ->
  let after := files_of (checkOnce H W fs) in
  axios_get W' (request_headers (stored_meta after)) =
    Response status' e' lm' data' ->
  success status' = true ->
  writable W' META_FILE = true ->
  extractOffersFromHtml H (or_empty data') = Some offers ->
  trace_of (checkOnce H W' after) =
    ([FsRead META_FILE; HttpGet (request_headers (stored_meta after));
      WriteMeta (update_meta (stored_meta after) e' lm'); Call Extractor;
      FsRead STORAGE_FILE] ++ seen_warning after ++
     [Call Differ; Console Log (NoNewOffers (now W') (length offers))])%list /\
  seen_file (files_of (checkOnce H W' after)) = seen_file after.
Proof.
  intros Hget Hs Hw Hws Hex after Hget' Hs' Hw' Hex'.
  assert (Hd : differ offers (JsSet.of_array (stored_seen after)) = []).
  { apply differ_nil. intros o Ho. apply JsSet_of_array_In.
    exact (@cycle_records_extracted _ _ _ _ _ _ _ _ Hget Hs Hw Hws Hex o Ho). }
  rewrite (@checkOnce_on_success _ _ _ _ _ _ _ _ Hget' Hs' Hw' Hex'). cbv zeta.
  rewrite Hd. simpl. split; [|reflexivity].
  unfold trace_of. simpl. reflexivity.
Qed.

Lemma unchanged_page_is_not_reported_again_witness :
  seen_file (files_of
    (checkOnce Sample.pager_host (Sample.outside 200 false)
       (files_of (checkOnce Sample.pager_host (Sample.outside 200 true)
                            Sample.files_none)))) =
  seen_file (files_of (checkOnce Sample.pager_host (Sample.outside 200 true)
                                 Sample.files_none)).
Proof.
  exact (proj2 (@unchanged_page_is_not_reported_again Sample.pager_host
    (Sample.outside 200 true) (Sample.outside 200 false) Sample.files_none
    200 200 None None (Some "<html>") None None (Some "<html>") _
    eq_refl eq_refl eq_refl eq_refl eq_refl eq_refl eq_refl eq_refl eq_refl)).
Defined.

(** ** The cycle: what it does only for new offers *)

Lemma add_all_nonempty (newOffers : list Offer) (S : list string) :
  (0 <? length newOffers) = true -> add_all newOffers S <> [].
Proof.
  destruct newOffers as [|o r]; [discriminate|]. intros _ E.
  assert (Hin : In (id o) (add_all (o :: r) S))
    by (apply add_all_In; right; now left).
  rewrite E in Hin. destruct Hin.
Qed.

(** X15.  Writing the seen-set file and posting to a channel happen only in
    a cycle that found new offers and called the notifier; a cycle that did
    not leaves the seen-set file as it was.  The list a cycle writes is
    never empty, and a cycle writes each of the two files at most once. *)
Theorem effects_only_for_new_offers (H : Host) (W : Outside) (fs : Files) :
  (forall w, In (WriteSeen w) (trace_of (checkOnce H W fs)) ->
     w <> [] /\ In (Call Notifier) (trace_of (checkOnce H W fs))) /\
  (forall url body, In (HttpPost url body) (trace_of (checkOnce H W fs)) ->
     In (Call Notifier) (trace_of (checkOnce H W fs))) /\
  (~ In (Call Notifier) (trace_of (checkOnce H W fs)) ->
   seen_file (files_of (checkOnce H W fs)) = seen_file fs) /\
  length (filter is_seen_write (trace_of (checkOnce H W fs))) <= 1 /\
  length (filter is_meta_write (trace_of (checkOnce H W fs))) <= 1.
Proof.
  split; [|split; [|split; [|split]]].
  - intros w. cases_of_run; unfold trace_of; simpl; intros Hin; sift Hin;
      injection Hin as <-;
      (split; [now apply add_all_nonempty | find_in]).
  - intros url body. cases_of_run; unfold trace_of; simpl; intros Hin;
      sift Hin; find_in.
  - cases_of_run; unfold trace_of, files_of; simpl; intros Hno;
      try reflexivity; exfalso; apply Hno; find_in.
  - cases_of_run; count_events; lia.
  - cases_of_run; count_events; lia.
Qed.

Lemma effects_only_for_new_offers_witness :
  ["https://www.stwdo.de/wohnen/angebot/7"] <> [] /\
  In (Call Notifier)
     (trace_of (checkOnce Sample.pager_host (Sample.outside 200 true)
                          Sample.files_none)).
Proof.
  apply (proj1 (effects_only_for_new_offers Sample.pager_host
                  (Sample.outside 200 true) Sample.files_none)).
  vm_compute. do 9 right. left. reflexivity.
Defined.

(** ** The seen-set file: the list that is written *)

Lemma firsts_In (l : list string) (x : string) : In x (firsts l) <-> In x l.
Proof. rewrite <- of_array_firsts. apply JsSet_of_array_In. Qed.


Lemma firsts_fixed (l : list string) : NoDup l -> firsts l = l.
Proof.
  induction 1 as [|x r Hx Hr IH]; simpl; [reflexivity|].
  rewrite IH. f_equal.
  rewrite <- (filter_ext_in (fun _ => true)).
  - clear. induction r as [|y r IH]; simpl; [reflexivity | now rewrite IH].
  - intros y Hy. destruct (String.eqb_spec x y) as [->|Hne];
      [contradiction | reflexivity].
Qed.

Lemma add_all_fold (newOffers : list Offer) (S : list string) :
  add_all newOffers S =
  fold_left (fun s x => JsSet.add x s) (map id newOffers) S.
Proof.
  unfold add_all. revert S.
  induction newOffers as [|o r IH]; intros S; simpl; [reflexivity | apply IH].
Qed.

(** Adding ids that are distinct and not yet there appends them. *)
Lemma add_all_appends (newOffers : list Offer) (S : list string) :
  NoDup (map id newOffers) ->
  (forall o, In o newOffers -> ~ In (id o) S) ->
  add_all newOffers S = (S ++ map id newOffers)%list.
Proof.
  intros Hnd Hnew. rewrite add_all_fold, of_array_from, (firsts_fixed Hnd).
  f_equal. rewrite <- (filter_ext_in (fun _ => true)).
  - generalize (map id newOffers). intros l.
    induction l as [|y r IH]; simpl; [reflexivity | now rewrite IH].
  - intros k Hk. apply in_map_iff in Hk. destruct Hk as [o [<- Ho]].
    destruct (JsSet.has (id o) S) eqn:E; [|reflexivity].
    apply JsSet_has_In in E. now apply Hnew in E.
Qed.







(** ** The cycle: failures after the response *)

(** X17.  Notification comes before the record of it: when a cycle found
    new offers and the write of the seen-set file then fails, the notifier
    has already run, the failure is logged and the file is as before.  A
    following cycle that extracts the same offers therefore finds them new
    and calls the notifier again. *)
Theorem failed_seen_write_repeats_notification (H : Host) (W W' : Outside)
  (fs : Files) (status status' : nat) (e lm data e' lm' data' : option string)
  (offers : list Offer) :
  axios_get W (request_headers (stored_meta fs)) = Response status e lm data ->
  success status = true ->
  writable W META_FILE = true ->
  writable W STORAGE_FILE = false ->
  extractOffersFromHtml H (or_empty data) = Some offers ->
  differ offers (JsSet.of_array (stored_seen fs)) <> [] ->
  let after := files_of (checkOnce H W fs) in
  seen_file after = seen_file fs /\
  In (Call Notifier) (trace_of (checkOnce H W fs)) /\
  In (processing_error (WriteFailed STORAGE_FILE))
     (trace_of (checkOnce H W fs)) /\
  (axios_get W' (request_headers (stored_meta after)) =
     Response status' e' lm' data' ->
   success status' = true ->
   writable W' META_FILE = true ->
   extractOffersFromHtml H (or_empty data') = Some offers ->
   In (Call Notifier) (trace_of (checkOnce H W' after))).
Proof.
  intros Hget Hs Hw Hws Hex Hnew after.
  apply length_pos_nonempty in Hnew.
  assert (Hrun := @checkOnce_on_success _ _ _ _ _ _ _ _ Hget Hs Hw Hex).
  cbv zeta in Hrun. rewrite Hnew, Hws in Hrun.
  assert (Hseen : seen_file after = seen_file fs)
    by (subst after; now rewrite Hrun).
  split; [exact Hseen|]. split; [rewrite Hrun; unfold trace_of; simpl; find_in|].
  split; [rewrite Hrun; unfold trace_of; simpl; find_in|].
  intros Hget' Hs' Hw' Hex'.
  rewrite (@checkOnce_on_success _ _ _ _ _ _ _ _ Hget' Hs' Hw' Hex').
  cbv zeta.
  assert (Hst : stored_seen after = stored_seen fs)
    by (unfold stored_seen; now rewrite Hseen).
  rewrite Hst, Hnew.
  destruct (writable W' STORAGE_FILE); unfold trace_of; simpl; find_in.
Qed.

Lemma failed_seen_write_repeats_notification_witness :
  In (Call Notifier)
     (trace_of (checkOnce Sample.pager_host (Sample.outside 200 true)
        (files_of (checkOnce Sample.pager_host Sample.outside_readonly
                             Sample.files1)))).
Proof.
  refine (proj2 (proj2 (proj2
    (@failed_seen_write_repeats_notification Sample.pager_host
       Sample.outside_readonly (Sample.outside 200 true) Sample.files1
       200 200 None None (Some "<html>") None None (Some "<html>") _
       eq_refl eq_refl eq_refl eq_refl eq_refl _)))
    eq_refl eq_refl eq_refl eq_refl).
  discriminate.
Defined.

(** X18.  The meta file is written before the page is looked at.  When that
    write fails the cycle stops there: no extraction, both files as before.
    When the extraction throws on a link that cannot be resolved, the new
    validators are already stored, while nothing is diffed, notified or
    recorded, and the seen-set file is as before. *)
Theorem failures_before_the_diff (H : Host) (W : Outside) (fs : Files)
  (status : nat) (e lm data : option string) :
  axios_get W (request_headers (stored_meta fs)) = Response status e lm data ->
  success status = true ->
  let m' := update_meta (stored_meta fs) e lm in
  let start := [FsRead META_FILE; HttpGet (request_headers (stored_meta fs))] in
  (writable W META_FILE = false ->
   checkOnce H W fs =
   (Ok tt, fs,
    start ++ [WriteMeta m'; processing_error (WriteFailed META_FILE)])%list) /\
  (writable W META_FILE = true ->
   extractOffersFromHtml H (or_empty data) = None ->
   checkOnce H W fs =
   (Ok tt, mkFiles (Parsed m') (seen_file fs),
    start ++ [WriteMeta m'; Call Extractor; processing_error InvalidURL])%list).
Proof.
  intros Hget Hs m' start. destruct (success_valid _ Hs) as [Hv H304].
  split.
  - intros Hw. rewrite checkOnce_run. cbv zeta.
    now rewrite Hget, Hv, H304, Hw.
  - intros Hw Hex. rewrite checkOnce_run. cbv zeta.
    now rewrite Hget, Hv, H304, Hw, Hex.
Qed.

Lemma failures_before_the_diff_witness :
  checkOnce Sample.unresolved_host (Sample.outside 200 true) Sample.files1 =
  (Ok tt, mkFiles (Parsed (mkMeta (Some "v1") None))
                  (Parsed (OffersArray [Sample.offer1])),
   [FsRead META_FILE;
    HttpGet (request_headers (mkMeta (Some "v1") None));
    WriteMeta (mkMeta (Some "v1") None); Call Extractor;
    processing_error InvalidURL]).
Proof.
  exact (proj2 (@failures_before_the_diff Sample.unresolved_host
    (Sample.outside 200 true) Sample.files1 200 None None (Some "<html>")
    eq_refl eq_refl) eq_refl eq_refl).
Defined.

(** ** The first cycle *)

(** X19.  With no seen-set on record, the file being absent or its payload
    not holding an [offers] array, every offer of the page is new: the
    notifier gets all of them in the order of the extraction, and the list
    written is that of their ids in that order. *)
Theorem first_cycle_reports_the_whole_page (H : Host) (W : Outside)
  (fs : Files) (status : nat) (e lm data : option string)
  (offers : list Offer) :
  seen_file fs = Absent \/ seen_file fs = Parsed Falsy \/
  seen_file fs = Parsed NoOffersArray \/
  seen_file fs = Parsed (OffersArray []) ->
  axios_get W (request_headers (stored_meta fs)) = Response status e lm data ->
  success status = true ->
  writable W META_FILE = true ->
  extractOffersFromHtml H (or_empty data) = Some offers ->
  offers <> [] ->
  exists after,
    trace_of (checkOnce H W fs) =
    ([FsRead META_FILE; HttpGet (request_headers (stored_meta fs));
      WriteMeta (update_meta (stored_meta fs) e lm); Call Extractor;
      FsRead STORAGE_FILE; Call Differ;
      Console Log (Detected (now W) (map title offers)); Call Notifier] ++
     notify_trace H W offers ++ WriteSeen (map id offers) :: after)%list.
Proof.
  intros Hfile Hget Hs Hw Hex Hne.
  assert (Hst : stored_seen fs = [] /\ seen_warning fs = []).
  { unfold stored_seen, seen_warning.
    destruct Hfile as [E|[E|[E|E]]]; rewrite E; split; reflexivity. }
  destruct Hst as [Hst Hwarn].
  assert (Hd : differ offers (JsSet.of_array []) = offers).
  { clear. induction offers as [|o r IH]; [reflexivity|].
    change (differ (o :: r) (JsSet.of_array []))
      with (o :: differ r (JsSet.of_array [])).
    now rewrite IH. }
  assert (Hadd : add_all offers (JsSet.of_array []) = map id offers).
  { rewrite add_all_appends; [reflexivity | | intros o _ []].
    exact (extractOffers_ids_NoDup _ _ Hex). }
  rewrite (@checkOnce_on_success _ _ _ _ _ _ _ _ Hget Hs Hw Hex). cbv zeta.
  rewrite Hst, Hwarn, Hd, Hadd.
  apply length_pos_nonempty in Hne. rewrite Hne.
  destruct (writable W STORAGE_FILE); unfold trace_of; simpl.
  - exists []. reflexivity.
  - exists [processing_error (WriteFailed STORAGE_FILE)].
    now rewrite <- app_assoc.
Qed.

Lemma first_cycle_reports_the_whole_page_witness :
  exists after,
    trace_of (checkOnce Sample.pager_host (Sample.outside 200 true)
                        Sample.files_none) =
    ([FsRead META_FILE;
      HttpGet (request_headers (stored_meta Sample.files_none));
      WriteMeta (update_meta (stored_meta Sample.files_none) None None);
      Call Extractor; FsRead STORAGE_FILE; Call Differ;
      Console Log (Detected (now (Sample.outside 200 true))
        (map title
          [mkOffer "https://www.stwdo.de/wohnen/angebot/7"
                   "Dortmund: Apartment"
                   "https://www.stwdo.de/wohnen/angebot/7"]));
      Call Notifier] ++
     notify_trace Sample.pager_host (Sample.outside 200 true)
       [mkOffer "https://www.stwdo.de/wohnen/angebot/7" "Dortmund: Apartment"
                "https://www.stwdo.de/wohnen/angebot/7"] ++
     WriteSeen (map id
       [mkOffer "https://www.stwdo.de/wohnen/angebot/7" "Dortmund: Apartment"
                "https://www.stwdo.de/wohnen/angebot/7"]) :: after)%list.
Proof.
  refine (@first_cycle_reports_the_whole_page Sample.pager_host
    (Sample.outside 200 true) Sample.files_none 200 None None (Some "<html>")
    _ (or_introl eq_refl) eq_refl eq_refl eq_refl eq_refl _).
  discriminate.
Defined.

(** ** The notifier: what it prints *)

(** X21.  Called with offers, the notifier prints exactly one console line,
    whichever channel is selected, and prints it last.  After a post that
    was rejected that line is an error line naming the failure; after a
    post that resolved there is no error line. *)
Theorem notifier_prints_one_line (H : Host) (W : Outside)
  (newOffers : list Offer) :
  newOffers <> [] ->
  (exists before lv line,
     notify_trace H W newOffers = (before ++ [Console lv line])%list /\
     filter is_console before = []) /\
  (forall url body,
     In (HttpPost url body) (notify_trace H W newOffers) ->
     if axios_post W url body
     then filter is_error_line (notify_trace H W newOffers) = []
     else exists s,
       In (Console Error (WithError s PostFailed))
          (notify_trace H W newOffers)).
Proof.
  intros Hne. destruct newOffers as [|o r]; [contradiction|]. clear Hne.
  unfold notify_trace, trace_of, notifyNewOffers. cbn [length Nat.eqb].
  set (msg := message_of (now W) (o :: r)).
  unfold dispatch, telegram, webhook, post, try_catch, bind, emit, ret, throw.
  fold (telegram_url H). generalize (telegram_url H). intros address.
  repeat match goal with
         | |- context [if ?b then _ else _] => destruct b eqn:?
         end;
    simpl; split;
    try (intros link body Hin; sift Hin; injection Hin as <- <-;
         match goal with
         | Hp : axios_post _ _ _ = _ |- _ => rewrite Hp
         end;
         first [ reflexivity | eexists; left; reflexivity
               | eexists; right; left; reflexivity ]);
    first [ exists [], Log; eexists; split; reflexivity
          | exists [], Error; eexists; split; reflexivity
          | eexists [_], Log; eexists; split; reflexivity
          | eexists [_], Error; eexists; split; reflexivity ].
Qed.

Lemma notifier_prints_one_line_witness :
  exists s,
    In (Console Error (WithError s PostFailed))
       (notify_trace Sample.telegram_host (Sample.outside 200 false)
                     [mkOffer "a" "A" "a"]).
Proof.
  refine ((proj2 (@notifier_prints_one_line Sample.telegram_host
    (Sample.outside 200 false) [mkOffer "a" "A" "a"] _))
    (telegram_url Sample.telegram_host)
    (TelegramBody "c" (message_of "2.11.2026, 12:00:00"
                         [mkOffer "a" "A" "a"]))
    (or_introl eq_refl)).
  discriminate.
Defined.

(** ** The tests of the fallback, by what they accept *)

Lemma prefix_spec (p s : string) :
  String.prefix p s = true <-> exists r, s = p ++ r.
Proof.
  split.
  - revert s. induction p as [|x p' IH]; intros s Hp.
    + exists s. reflexivity.
    + destruct s as [|y s']; simpl in Hp; [discriminate|].
      destruct (ascii_dec x y) as [<-|]; [|discriminate].
      destruct (IH _ Hp) as [r ->]. exists r. reflexivity.
  - intros [r ->]. apply prefix_app, prefix_refl.
Qed.

Lemma includes_spec (p s : string) :
  Str.includes p s = true <-> exists a b, s = a ++ p ++ b.
Proof.
  split.
  - induction s as [|c s' IH]; cbn [Str.includes]; unfold Str.startsWith;
      intros Hp.
    + rewrite orb_false_r in Hp. apply prefix_spec in Hp.
      destruct Hp as [r Hr]. exists "", r. exact Hr.
    + apply orb_true_iff in Hp. destruct Hp as [Hp|Hp].
      * apply prefix_spec in Hp. destruct Hp as [r Hr]. exists "", r. exact Hr.
      * destruct (IH Hp) as [a [b ->]]. exists (String c a), b. reflexivity.
  - intros [a [b ->]]. apply includes_app_r, includes_app_l, includes_refl.
Qed.

Lemma lower_ascii_split (s x y : string) :
  Str.lower_ascii s = x ++ y ->
  exists s1 s2,
    s = s1 ++ s2 /\ Str.lower_ascii s1 = x /\ Str.lower_ascii s2 = y.
Proof.
  revert s. induction x as [|c x' IH]; intros s Hs.
  - exists "", s. repeat split. exact Hs.
  - destruct s as [|d s']; [discriminate|].
    cbn [Str.lower_ascii append] in Hs. injection Hs as Hc Hs.
    destruct (IH _ Hs) as [s1 [s2 [-> [H1 H2]]]].
    exists (String d s1), s2. cbn [Str.lower_ascii append].
    rewrite Hc, H1. repeat split. exact H2.
Qed.

Lemma code_of_byte (n : nat) : n < 256 -> Str.code (Str.byte n) = n.
Proof. apply nat_ascii_embedding. Qed.

Lemma byte_of_code (c : ascii) : Str.byte (Str.code c) = c.
Proof. apply ascii_nat_embedding. Qed.

(** A capital written small again. *)
Lemma lower_char_capital (c : ascii) :
  97 <= Str.code c <= 122 ->
  Str.lower_char (Str.byte (Str.code c - 32)) = c.
Proof.
  intros Hc. unfold Str.lower_char, Str.is_upper.
  rewrite code_of_byte by lia.
  replace (65 <=? Str.code c - 32) with true
    by (symmetry; apply Nat.leb_le; lia).
  replace (Str.code c - 32 <=? 90) with true
    by (symmetry; apply Nat.leb_le; lia).
  simpl. replace (Str.code c - 32 + 32) with (Str.code c) by lia.
  apply byte_of_code.
Qed.

Lemma variant_lower (w k : string) :
  case_variant w k -> Str.lower_ascii k = k -> Str.lower_ascii w = k.
Proof.
  induction 1 as [|c w k Hv IH|c w k Hc Hv IH]; intros Hk.
  - reflexivity.
  - cbn [Str.lower_ascii] in *. injection Hk as Hc Hk.
    now rewrite Hc, (IH Hk).
  - cbn [Str.lower_ascii] in *. injection Hk as _ Hk.
    now rewrite (@lower_char_capital c Hc), (IH Hk).
Qed.

Lemma lower_variant (w k : string) :
  small_letters k = true -> Str.lower_ascii w = k -> case_variant w k.
Proof.
  revert k. induction w as [|c w' IH]; intros k Hsmall Hw.
  - cbn [Str.lower_ascii] in Hw. subst k. constructor.
  - destruct k as [|d k']; [discriminate|].
    cbn [Str.lower_ascii] in Hw. injection Hw as Hd Hw'.
    cbn [small_letters] in Hsmall. apply andb_true_iff in Hsmall.
    destruct Hsmall as [Hd' Hk']. apply andb_true_iff in Hd'.
    destruct Hd' as [Hlo Hhi].
    apply Nat.leb_le in Hlo. apply Nat.leb_le in Hhi.
    specialize (IH k' Hk' Hw').
    unfold Str.lower_char in Hd.
    destruct (Str.is_upper c) eqn:U.
    + unfold Str.is_upper in U. apply andb_true_iff in U.
      destruct U as [U1 U2].
      apply Nat.leb_le in U1. apply Nat.leb_le in U2.
      assert (Hcode : Str.code d = Str.code c + 32)
        by (rewrite <- Hd; apply code_of_byte; lia).
      replace c with (Str.byte (Str.code d - 32)).
      * apply variant_capital; [lia | exact IH].
      * rewrite Hcode. replace (Str.code c + 32 - 32) with (Str.code c) by lia.
        apply byte_of_code.
    + subst d. now apply variant_same.
Qed.

Lemma keyword_found (k s : string) :
  small_letters k = true ->
  Str.includes k (Str.lower_ascii s) = true ->
  exists w a b, case_variant w k /\ s = a ++ w ++ b.
Proof.
  intros Hk Hin. apply includes_spec in Hin. destruct Hin as [x [y Hs]].
  destruct (@lower_ascii_split _ _ _ Hs) as [a [r [-> [_ Hr]]]].
  destruct (@lower_ascii_split _ _ _ Hr) as [w [b [-> [Hw _]]]].
  exists w, a, b. split; [now apply lower_variant | reflexivity].
Qed.

Lemma keyword_shown (k w a b : string) :
  Str.lower_ascii k = k -> case_variant w k ->
  Str.includes k (Str.lower_ascii (a ++ w ++ b)) = true.
Proof.
  intros Hk Hv. rewrite !lower_ascii_app, (@variant_lower _ _ Hv Hk).
  apply includes_app_r, includes_app_l, includes_refl.
Qed.

Lemma isInternal_spec (h : string) :
  isInternal h = true <->
  (exists r, h = "/" ++ r) \/ (exists a b, h = a ++ "stwdo.de" ++ b).
Proof.
  unfold isInternal, Str.startsWith.
  rewrite orb_true_iff, prefix_spec, includes_spec. reflexivity.
Qed.

Lemma hasKeywords_spec (s : string) :
  hasKeywords s = true <->
  exists k w a b, In k keywords /\ case_variant w k /\ s = a ++ w ++ b.
Proof.
  split.
  - unfold hasKeywords. cbv zeta. intros Hk.
    repeat (apply orb_true_iff in Hk; destruct Hk as [Hk|Hk]);
      apply keyword_found in Hk; try reflexivity;
      destruct Hk as [w [a [b [Hv Hs]]]];
      eexists; exists w, a, b; (split; [|split; [exact Hv | exact Hs]]);
      unfold keywords; simpl; tauto.
  - intros [k [w [a [b [Hk [Hv ->]]]]]].
    unfold hasKeywords. cbv zeta.
    destruct Hk as [<-|[<-|[<-|[<-|[<-|[]]]]]];
      rewrite (@keyword_shown _ _ a b eq_refl Hv);
      now rewrite ?orb_true_r.
Qed.

Lemma absolute_spec (H : Host) (ref k : string) :
  absolute H ref = Some k <->
  ((exists r, ref = "http" ++ r) /\ k = ref) \/
  (~ (exists r, ref = "http" ++ r) /\ resolveURL H ref = Some k).
Proof.
  unfold absolute, Str.startsWith.
  destruct (String.prefix "http" ref) eqn:E.
  - apply prefix_spec in E. split.
    + intros Hk. injection Hk as <-. left. now split.
    + intros [[_ ->]|[Hn _]]; [reflexivity | contradiction].
  - split.
    + intros Hk. right. split; [|exact Hk].
      intros Hp. apply prefix_spec in Hp. congruence.
    + intros [[Hp _]|[_ Hk]]; [|exact Hk].
      apply prefix_spec in Hp. congruence.
Qed.

(** C7.  The fallback pass runs only when the structural pass left the map
    empty: a non-empty structural result is returned as it is, and an empty
    one hands over to the fallback.  An anchor passes the test of the
    fallback exactly when its href is internal and its trimmed text followed
    by its href matches the pattern, where an href is internal exactly when
    it begins with a slash or has [stwdo.de] somewhere in it, and a string
    matches the pattern exactly when one of the five words occurs in it, each
    letter small or capital.  Among the anchors it visits, the fallback
    records exactly the ids of those that pass, the id being the href itself
    when it begins with [http] and the resolved href otherwise; it returns
    whenever these hrefs resolve.  On a page without teaser cards whose only
    anchor that passes has href [/wohnen/angebot/123] and text [Zimmer frei],
    the result is the single offer whose id is the resolved href. *)
Theorem fallback_strategy (H : Host) (doc : Document) :
  (forall m, structural H doc = Some m -> JsMap.size m <> 0 ->
     extractOffers H doc = Some (JsMap.values m)) /\
  (structural H doc = Some [] ->
     extractOffers H doc = option_map JsMap.values (fallback H doc)) /\
  (forall el, accepted el =
     isInternal (or_empty (href el)) &&
     hasKeywords (Str.trim (text el) ++ or_empty (href el))) /\
  (forall h, isInternal h = true <->
     (exists r, h = "/" ++ r) \/ (exists a b, h = a ++ "stwdo.de" ++ b)) /\
  (forall s, hasKeywords s = true <->
     exists k w a b, In k keywords /\ case_variant w k /\ s = a ++ w ++ b) /\
  (forall ref k, absolute H ref = Some k <->
     ((exists r, ref = "http" ++ r) /\ k = ref) \/
     (~ (exists r, ref = "http" ++ r) /\ resolveURL H ref = Some k)) /\
  (forall m, fallback H doc = Some m ->
     forall k, In k (map id (JsMap.values m)) <->
       exists el, In el (fallback_anchors doc) /\
         isInternal (or_empty (href el)) = true /\
         hasKeywords (Str.trim (text el) ++ or_empty (href el)) = true /\
         absolute H (or_empty (href el)) = Some k) /\
  ((forall el, In el (fallback_anchors doc) -> accepted el = true ->
      absolute H (or_empty (href el)) <> None) ->
   fallback H doc <> None) /\
  (forall pre post u,
     teaserList doc = [] ->
     fallback_anchors doc = (pre ++ zimmer_frei :: post)%list ->
     Forall (fun el => accepted el = false) pre ->
     Forall (fun el => accepted el = false) post ->
     resolveURL H "/wohnen/angebot/123" = Some u ->
     extractOffers H doc = Some [mkOffer u "Zimmer frei" u]).
Proof.
  split; [|split; [|split; [|split; [|split; [|split; [|split; [|split]]]]]]].
  - intros m Es Hsize. unfold extractOffers. rewrite Es.
    destruct (JsMap.size m =? 0) eqn:E; [|reflexivity].
    apply Nat.eqb_eq in E. contradiction.
  - intros Es. unfold extractOffers. now rewrite Es.
  - reflexivity.
  - apply isInternal_spec.
  - apply hasKeywords_spec.
  - apply absolute_spec.
  - intros m Ef k.
    destruct (fallback_sound _ _ Ef) as [Hk _]. rewrite (keyed_ids Hk).
    rewrite (fallback_keys _ _ _ Ef k). unfold accepted. split.
    + intros [[]|[el [Hin [Ha Hr]]]].
      apply andb_true_iff in Ha. exists el. tauto.
    + intros [el [Hin [Hi [Hw Hr]]]]. right. exists el.
      rewrite Hi, Hw. tauto.
  - intros Hall. now apply fallback_total.
  - intros pre post u Ht Ha Hpre Hpost Hu.
    unfold extractOffers, structural. rewrite Ht. simpl.
    unfold fallback. rewrite Ha, each_app, (fallback_skips _ _ Hpre). simpl.
    rewrite zimmer_frei_callback, Hu, (fallback_skips _ _ Hpost).
    reflexivity.
Qed.

Lemma fallback_strategy_witness :
  extractOffers (Sample.host Sample.mixed_anchors None None None None)
                Sample.mixed_anchors =
  Some [mkOffer "https://www.stwdo.de/wohnen/angebot/123" "Zimmer frei"
                "https://www.stwdo.de/wohnen/angebot/123"] /\
  extractOffers (Sample.host Sample.one_card None None None None)
                Sample.card_and_anchor =
  Some [mkOffer "https://www.stwdo.de/wohnen/angebot/7" "Dortmund: Apartment"
                "https://www.stwdo.de/wohnen/angebot/7"] /\
  isInternal "https://www.stwdo.de/bewerbung" = true /\
  hasKeywords "Freie ZIMMER im Sommer" = true.
Proof.
  pose proof (fallback_strategy
                (Sample.host Sample.mixed_anchors None None None None)
                Sample.mixed_anchors)
    as [_ [_ [_ [Hint [Hkey [_ [_ [_ Hscene]]]]]]]].
  split; [|split; [|split]].
  - apply (Hscene
      [mkAnchor (Some "https://example.org/wohnung") "Wohnung mieten";
       mkAnchor (Some "/impressum") "Impressum"] []).
    + reflexivity.
    + reflexivity.
    + repeat constructor.
    + constructor.
    + reflexivity.
  - apply (proj1 (fallback_strategy
                    (Sample.host Sample.one_card None None None None)
                    Sample.card_and_anchor)
             [("https://www.stwdo.de/wohnen/angebot/7",
               mkOffer "https://www.stwdo.de/wohnen/angebot/7"
                       "Dortmund: Apartment"
                       "https://www.stwdo.de/wohnen/angebot/7")]).
    + reflexivity.
    + discriminate.
  - apply Hint. right. exists "https://www.", "/bewerbung". reflexivity.
  - apply Hkey. exists "zimmer", "ZIMMER", "Freie ", " im Sommer".
    split; [simpl; tauto|]. split; [|reflexivity].
    apply lower_variant; reflexivity.
Defined.

(** ** The cycle over any meta file *)

Lemma readable_null (d : Disk) :
  readable d = None <-> disk_meta d = Parsed NullPayload.
Proof.
  unfold readable. destruct (disk_meta d) as [| |[|m]]; split;
    intros E; try discriminate E; reflexivity.
Qed.

Lemma readable_on_disk (d : Disk) (fs : Files) :
  readable d = Some fs -> on_disk fs = d.
Proof.
  destruct d as [dm ds]. unfold readable, on_disk. simpl.
  destruct dm as [| |[|m]]; intros E; try discriminate E;
    injection E as <-; reflexivity.
Qed.

Lemma on_disk_not_null (fs : Files) :
  disk_meta (on_disk fs) <> Parsed NullPayload.
Proof.
  unfold on_disk. simpl. destruct (meta_file fs); discriminate.
Qed.

Lemma on_disk_readable (fs : Files) :
  readable (on_disk fs) = Some fs.
Proof.
  destruct fs as [fm fsn]. unfold readable, on_disk. simpl.
  destruct fm; reflexivity.
Qed.

(** With anything but [null] in the meta file, the cycle is the one of
    [checkOnce], and it returns. *)
Lemma checkOnce_on_disk_read (H : Host) (W : Outside) (d : Disk)
  (fs : Files) :
  readable d = Some fs ->
  checkOnce_on_disk H W d =
  (Returns, on_disk (files_of (checkOnce H W fs)), trace_of (checkOnce H W fs)).
Proof.
  intros Hr. unfold checkOnce_on_disk. rewrite Hr. cbv zeta.
  now rewrite checkOnce_returns.
Qed.

Lemma checkOnce_on_disk_null (H : Host) (W : Outside) (d : Disk) :
  disk_meta d = Parsed NullPayload ->
  checkOnce_on_disk H W d = (Rejects, d, [FsRead META_FILE]).
Proof.
  intros Hn. apply readable_null in Hn. unfold checkOnce_on_disk.
  now rewrite Hn.
Qed.

Lemma checkOnce_seen_incl (H : Host) (W : Outside) (fs : Files) :
  incl (stored_seen fs) (stored_seen (files_of (checkOnce H W fs))).
Proof.
  cases_of_run; unfold files_of; simpl; try apply incl_refl;
    apply incl_add_all.
Qed.

(** X10.  A call of [checkOnce] is rejected in one case only: when the meta
    file holds [null], and then right after reading it, before any request,
    with both files as they were.  With anything else in the meta file the
    call returns: every failure of the request, of a file write or of the
    extraction is caught and logged.  When the request fails, by the network
    or by a status that is neither of the 2xx class nor 304, the cycle logs
    that one error and does nothing else. *)
Theorem cycle_rejects_only_on_null_meta (H : Host) (W : Outside) (d : Disk) :
  (disk_meta d = Parsed NullPayload ->
   checkOnce_on_disk H W d = (Rejects, d, [FsRead META_FILE])) /\
  (disk_meta d <> Parsed NullPayload ->
   fst (fst (checkOnce_on_disk H W d)) = Returns) /\
  (forall fs, readable d = Some fs ->
     (axios_get W (request_headers (stored_meta fs)) = NoReply \/
      exists status e lm data,
        axios_get W (request_headers (stored_meta fs)) =
          Response status e lm data /\
        validateStatus status = false) ->
     exists err,
       checkOnce_on_disk H W d =
       (Returns, d,
        [FsRead META_FILE; HttpGet (request_headers (stored_meta fs));
         processing_error err])).
Proof.
  split; [apply checkOnce_on_disk_null|]. split.
  - intros Hn. destruct (readable d) as [fs|] eqn:Hr.
    + now rewrite (checkOnce_on_disk_read H W d Hr).
    + apply readable_null in Hr. contradiction.
  - intros fs Hr Hfail. rewrite (checkOnce_on_disk_read H W d Hr).
    rewrite checkOnce_run. cbv zeta.
    destruct Hfail as [E|[status [e [lm [data [E Hv]]]]]]; rewrite E, ?Hv;
      unfold files_of, trace_of; simpl;
      rewrite (readable_on_disk _ Hr); eexists; reflexivity.
Qed.

Lemma cycle_rejects_only_on_null_meta_witness :
  checkOnce_on_disk Sample.telegram_host (Sample.outside 200 true)
                    SampleDisk.disk_null =
    (Rejects, SampleDisk.disk_null, [FsRead META_FILE]) /\
  fst (fst (checkOnce_on_disk Sample.telegram_host (Sample.outside 200 true)
                              SampleDisk.disk1)) = Returns /\
  exists err,
    checkOnce_on_disk Sample.telegram_host (Sample.outside 503 true)
                      SampleDisk.disk1 =
    (Returns, SampleDisk.disk1,
     [FsRead META_FILE; HttpGet (request_headers (stored_meta Sample.files1));
      processing_error err]).
Proof.
  split; [|split].
  - exact (proj1 (cycle_rejects_only_on_null_meta Sample.telegram_host
                    (Sample.outside 200 true) SampleDisk.disk_null) eq_refl).
  - apply (proj1 (proj2 (cycle_rejects_only_on_null_meta Sample.telegram_host
                           (Sample.outside 200 true) SampleDisk.disk1))).
    discriminate.
  - apply (proj2 (proj2 (cycle_rejects_only_on_null_meta Sample.telegram_host
                           (Sample.outside 503 true) SampleDisk.disk1))
             Sample.files1 eq_refl).
    right. exists 503, None, None, (Some "<html>"). split; reflexivity.
Defined.



(** ** The main loop *)

Lemma disk_ids_on_disk (fs : Files) : disk_ids (on_disk fs) = stored_seen fs.
Proof. reflexivity. Qed.

Lemma disk_ids_readable (d : Disk) (fs : Files) :
  readable d = Some fs -> stored_seen fs = disk_ids d.
Proof. intros Hr. now rewrite <- (readable_on_disk d Hr). Qed.

(** A cycle forgets no id, and leaves no [null] in a meta file that had
    none. *)
Lemma checkOnce_on_disk_step (H : Host) (W : Outside) (d : Disk) :
  incl (disk_ids d) (disk_ids (snd (fst (checkOnce_on_disk H W d)))) /\
  (disk_meta d <> Parsed NullPayload ->
   fst (fst (checkOnce_on_disk H W d)) = Returns /\
   disk_meta (snd (fst (checkOnce_on_disk H W d))) <> Parsed NullPayload).
Proof.
  destruct (readable d) as [fs|] eqn:Hr.
  - rewrite (checkOnce_on_disk_read H W d Hr). cbn [fst snd].
    rewrite disk_ids_on_disk, <- (disk_ids_readable d Hr). split.
    + apply checkOnce_seen_incl.
    + intros _. split; [reflexivity | apply on_disk_not_null].
  - apply readable_null in Hr. rewrite (checkOnce_on_disk_null H W d Hr).
    cbn [fst snd]. split; [apply incl_refl | intros Hn; contradiction].
Qed.

Lemma ticks_cons (D : Type) (H : Host) (delay : D) (W : Outside)
  (ws : list Outside) (d : Disk) :
  ticks H delay (W :: ws) d =
  (fst (ticks H delay ws (snd (fst (checkOnce_on_disk H W d)))),
   (map During (snd (checkOnce_on_disk H W d)) ++
    match fst (fst (checkOnce_on_disk H W d)) with
    | Returns => []
    | Rejects => [Caught]
    end ++
    Sleep delay :: snd (ticks H delay ws (snd (fst (checkOnce_on_disk H W d)))))%list).
Proof. reflexivity. Qed.

Lemma filter_sleep_during (D : Type) (t : list Event) :
  filter (@is_sleep D) (map During t) = [].
Proof. induction t as [|e t IH]; [reflexivity | exact IH]. Qed.

Lemma filter_caught_during (D : Type) (t : list Event) :
  filter (@is_caught D) (map During t) = [].
Proof. induction t as [|e t IH]; [reflexivity | exact IH]. Qed.

Lemma ticks_sleeps (D : Type) (H : Host) (delay : D) (ws : list Outside) :
  forall d,
    filter is_sleep (snd (ticks H delay ws d)) =
    repeat (Sleep delay) (length ws).
Proof.
  induction ws as [|W ws IH]; intros d; [reflexivity|].
  rewrite ticks_cons. cbn [snd length repeat].
  rewrite !filter_app, filter_sleep_during. cbn [app].
  destruct (fst (fst (checkOnce_on_disk H W d))); cbn [filter is_sleep app];
    now rewrite IH.
Qed.

Lemma ticks_ids (D : Type) (H : Host) (delay : D) (ws : list Outside) :
  forall d, incl (disk_ids d) (disk_ids (fst (ticks H delay ws d))).
Proof.
  induction ws as [|W ws IH]; intros d; [apply incl_refl|].
  rewrite ticks_cons. cbn [fst].
  eapply incl_tran; [apply (proj1 (checkOnce_on_disk_step H W d)) | apply IH].
Qed.

Lemma ticks_never_caught (D : Type) (H : Host) (delay : D)
  (ws : list Outside) :
  forall d, disk_meta d <> Parsed NullPayload ->
    filter is_caught (snd (ticks H delay ws d)) = [].
Proof.
  induction ws as [|W ws IH]; intros d Hn; [reflexivity|].
  rewrite ticks_cons. cbn [snd].
  destruct (proj2 (checkOnce_on_disk_step H W d) Hn) as [Hret Hnext].
  rewrite Hret, !filter_app, filter_caught_during.
  cbn [app filter is_caught]. now apply IH.
Qed.

Lemma ticks_stuck (D : Type) (H : Host) (delay : D) (ws : list Outside)
  (d : Disk) :
  disk_meta d = Parsed NullPayload ->
  ticks H delay ws d = (d, concat (repeat (stuck_tick delay) (length ws))).
Proof.
  intros Hn. induction ws as [|W ws IH]; [reflexivity|].
  rewrite ticks_cons, (checkOnce_on_disk_null H W d Hn). cbn [fst snd].
  now rewrite IH.
Qed.

Lemma ticks_app (D : Type) (H : Host) (delay : D) (ws1 ws2 : list Outside) :
  forall d,
    ticks H delay (ws1 ++ ws2) d =
    (fst (ticks H delay ws2 (fst (ticks H delay ws1 d))),
     (snd (ticks H delay ws1 d) ++
      snd (ticks H delay ws2 (fst (ticks H delay ws1 d))))%list).
Proof.
  induction ws1 as [|W ws1 IH]; intros d.
  - cbn [app ticks fst snd]. now destruct (ticks H delay ws2 d).
  - change ((W :: ws1) ++ ws2)%list with (W :: (ws1 ++ ws2))%list.
    rewrite !ticks_cons, IH. cbn [fst snd].
    now rewrite <- !app_assoc, <- app_comm_cons.
Qed.

(** X20.  [main] prints its two lines and then polls for ever: after every
    call of [checkOnce], returned or rejected, it sleeps once, always for the
    same delay, and goes on.  The loop is cut at any number of ticks, and a
    longer run continues the shorter one from the files it left.  No tick
    drops an id from the list on record.  The [catch] of the loop is entered
    in one case only: with [null] in the meta file, and then at every tick,
    each one reading the meta file and nothing else, so that nothing is
    requested or recorded until the file is changed from outside; with
    anything else in the meta file at the start, it is never entered. *)
Theorem main_loop_polls_forever (D : Type) (H : Host)
  (MONITOR_URL interval_text : string) (delay : D) (ws : list Outside)
  (d : Disk) :
  let run := main H MONITOR_URL interval_text delay ws d in
  (exists beats,
     snd run =
       During (Console Log
         (Plain ("Starting STWDO offer monitor for: " ++ MONITOR_URL)))
       :: During (Console Log
            (Plain ("Polling interval: " ++ interval_text ++ "s")))
       :: beats /\
     beats = snd (ticks H delay ws d)) /\
  filter is_sleep (snd run) = repeat (Sleep delay) (length ws) /\
  (forall ws1 ws2, ws = (ws1 ++ ws2)%list ->
     fst run = fst (ticks H delay ws2 (fst (ticks H delay ws1 d))) /\
     snd (ticks H delay ws d) =
       (snd (ticks H delay ws1 d) ++
        snd (ticks H delay ws2 (fst (ticks H delay ws1 d))))%list) /\
  incl (disk_ids d) (disk_ids (fst run)) /\
  (disk_meta d <> Parsed NullPayload -> filter is_caught (snd run) = []) /\
  (disk_meta d = Parsed NullPayload ->
   fst run = d /\
   snd (ticks H delay ws d) = concat (repeat (stuck_tick delay) (length ws)) /\
   length (filter is_caught (snd run)) = length ws).
Proof.
  cbv zeta. unfold main. cbn [fst snd].
  split; [eexists; split; reflexivity|].
  split; [cbn [filter is_sleep]; apply ticks_sleeps|].
  split.
  { intros ws1 ws2 ->. rewrite ticks_app. cbn [fst snd]. split; reflexivity. }
  split; [apply ticks_ids|].
  split; [intros Hn; cbn [filter is_caught]; now apply ticks_never_caught|].
  intros Hn. rewrite (@ticks_stuck _ H delay ws d Hn). cbn [fst snd].
  split; [reflexivity|]. split; [reflexivity|].
  cbn [filter is_caught]. clear Hn.
  induction ws as [|W ws IH]; [reflexivity|].
  cbn [length repeat concat stuck_tick app filter is_caught].
  now rewrite IH.
Qed.

Lemma main_loop_polls_forever_witness :
  (filter is_caught
     (snd (main Sample.telegram_host "https://www.stwdo.de/wohnen" "120" 120000%N
             [Sample.outside 200 true; Sample.outside 304 true]
             SampleDisk.disk_none)) = []) /\
  (fst (main Sample.telegram_host "https://www.stwdo.de/wohnen" "120" 120000%N
          [Sample.outside 200 true; Sample.outside 304 true]
          SampleDisk.disk_null) = SampleDisk.disk_null /\
   snd (ticks Sample.telegram_host 120000%N
          [Sample.outside 200 true; Sample.outside 304 true]
          SampleDisk.disk_null) =
     [During (FsRead META_FILE); Caught; Sleep 120000%N;
      During (FsRead META_FILE); Caught; Sleep 120000%N] /\
   length (filter is_caught
     (snd (main Sample.telegram_host "https://www.stwdo.de/wohnen" "120" 120000%N
             [Sample.outside 200 true; Sample.outside 304 true]
             SampleDisk.disk_null))) = 2).
Proof.
  split.
  - apply (proj1 (proj2 (proj2 (proj2 (proj2
      (@main_loop_polls_forever _ Sample.telegram_host
         "https://www.stwdo.de/wohnen" "120" 120000%N
         [Sample.outside 200 true; Sample.outside 304 true]
         SampleDisk.disk_none)))))).
    discriminate.
  - exact (proj2 (proj2 (proj2 (proj2 (proj2
      (@main_loop_polls_forever _ Sample.telegram_host
         "https://www.stwdo.de/wohnen" "120" 120000%N
         [Sample.outside 200 true; Sample.outside 304 true]
         SampleDisk.disk_null))))) eq_refl).
Defined.
